(** * pipeless: the configuration resolver and the input pipeline coordinator

    A shallow embedding of [pipeless_ai/lib/config.py] and
    [pipeless_ai/lib/input/input.py].  Python objects are values of [pyval],
    the process (environment, singleton registry, media-engine handles, and
    everything the code tells its collaborators) is a [world], and every
    function of the source is a computation over it that returns, raises or
    exits. *)

From Stdlib Require Import ZArith String Ascii List Lia.
From stdpp Require Import gmap strings list.
Import ListNotations.

Local Open Scope string_scope.
Local Open Scope list_scope.
Local Open Scope Z_scope.

(** ** Python values *)

(** The objects a configuration document holds.  A document is a nested
    [dict] with [str] keys. *)
#[warnings="-register-all"]
Inductive pyval : Type :=
| VNone
| VBool (b : bool)
| VInt (n : Z)
| VStr (s : string)
| VDict (d : gmap string pyval).

(** The exceptions the modelled code can meet. *)
Inductive exn : Type :=
| KeyError | TypeError | ValueError | AttributeError | IndexError.

(** How a call ends: with a value, with an exception, or with
    [sys.exit(code)]. *)
Inductive outcome (A : Type) : Type :=
| Return (a : A)
| Raise (e : exn)
| Exit (code : Z).
Arguments Return {A} a.
Arguments Raise {A} e.
Arguments Exit {A} code.

(** The builtin [int] applied to a [str]; [None] stands for [ValueError].
    It is an interface of the interpreter, not of this repository. *)
Class Builtins : Type := { int_of_str : string -> option Z }.

(** [x == 'lit'] for a string literal: only an equal [str] compares equal. *)
Definition py_eq_str (x : pyval) (lit : string) : bool :=
  match x with
  | VStr s => String.eqb s lit
  | _ => false
  end.

(** [str.split(sep)] for a one-character separator: cuts at every
    occurrence, never returns an empty list. *)
Fixpoint str_split (sep : ascii) (s : string) : list string :=
  match s with
  | EmptyString => [EmptyString]
  | String c rest =>
      let parts := str_split sep rest in
      if Ascii.eqb c sep then EmptyString :: parts
      else match parts with
           | p :: ps => String c p :: ps
           | [] => [String c EmptyString]
           end
  end.

(** A decimal reader for plain ASCII numerals with an optional sign, used to
    run the model on concrete inputs. *)
Fixpoint ascii_digits (s : string) (acc : Z) : option Z :=
  match s with
  | EmptyString => Some acc
  | String c rest =>
      let k := Z.of_nat (nat_of_ascii c) in
      if (48 <=? k) && (k <=? 57) then ascii_digits rest (10 * acc + (k - 48))
      else None
  end.

Definition ascii_int (s : string) : option Z :=
  match s with
  | EmptyString => None
  | String "-" (String c r) => Z.opp <$> ascii_digits (String c r) 0
  | String "+" (String c r) => ascii_digits (String c r) 0
  | _ => ascii_digits s 0
  end.

(** ** Configuration objects ([config.py]) *)

(** [class Address]: the two attributes its constructor sets. *)
Record Address : Type := {
  _host : pyval;
  _port : pyval
}.

(** [class Video]. *)
Record Video : Type := {
  _enable : pyval;
  _uri : pyval;
  _protocol : string;
  _location : string
}.

(** [class Input] and [class Output] have the same two attributes. *)
Record Input : Type := {
  Input_video : Video;
  Input_address : Address
}.

Record Output : Type := {
  Output_video : Video;
  Output_address : Address
}.

(** [class Config]. *)
Record Config : Type := {
  _log_level : pyval;
  _input : Input;
  _output : Output;
  _n_workers : pyval
}.

(** ** Media-engine objects ([Gst], [GstApp]) as the callbacks see them *)

(** [Gst.Caps]: its string form and the fields of its first structure. *)
Record Caps : Type := {
  to_string : string;
  get_structure_0 : option (gmap string Z)
}.

(** [Gst.Buffer]: whether [map(READ)] succeeds, the bytes it then exposes,
    and the timing fields. *)
Record Buffer : Type := {
  map_success : bool;
  map_data : list Byte.byte;
  dts : Z;
  pts : Z;
  duration : Z
}.

(** [Gst.Sample]. *)
Record Sample : Type := {
  get_caps : option Caps;
  get_buffer : option Buffer
}.

(** [GstApp.AppSink] at the time of a [new-sample] signal: what
    [pull_sample()] answers. *)
Record AppSink : Type := {
  pull_sample : option Sample
}.

(** [Gst.Pad] of the decode stage at the time of a callback: its name, its
    current caps, and whether the engine accepts a link from it to the
    normalization stage's sink pad. *)
Record Pad : Type := {
  get_name : string;
  get_current_caps : option Caps;
  link_accepted : bool
}.

Inductive State : Type :=
| VOID_PENDING | NULL | READY | PAUSED | PLAYING.

(** [Gst.Message] by [msg.type], with what the handler parses out of it. *)
Inductive Message : Type :=
| EOS
| ERROR (src_name err_message : string) (debug : option string)
| WARNING (src_name err_message : string) (debug : option string)
| STATE_CHANGED (old_state new_state pending_state : State)
| TAG (tags : string)
| OTHER.

Inductive FlowReturn : Type := FlowOK | FlowERROR.

Inductive PadProbeReturn : Type := ProbeOK | ProbeREMOVE.

(** ** Messages and channels ([messages], [connection]) *)

(** The four message classes input.py builds. *)
Inductive Msg : Type :=
| EndOfStreamMsg
| RgbImageMsg (width height : Z) (ndframe : list Byte.byte) (dts pts duration : Z)
| StreamCapsMsg (caps : string)
| StreamTagsMsg (tags : string).

(** Modelled from the spec: the codec of [pipeless_ai.lib.messages] is not
    under src/; each variant serializes to a self-describing,
    distinguishable byte sequence, so the bytes on the wire are kept as the
    message they encode. *)
Inductive wire : Type := serialize (m : Msg).

(** Modelled from the spec: the sockets of [pipeless_ai.lib.connection] are
    not under src/.  [InputOutputSocket('w')] is the point-to-point channel
    to the output component, [InputPushSocket()] the round-robin worker
    distribution channel. *)
Inductive channel : Type := InputOutputSocket | InputPushSocket.

(** ** Effects *)

Inductive level : Type := DEBUG | INFO | WARN | ERR.

(** One piece of a log line: literal text or an interpolated object. *)
Inductive fpart : Type :=
| FLit (s : string)
| FVal (v : pyval)
| FCaps (c : option Caps)
| FState (s : State).

(** What the code asks of its collaborators, in the order it asks. *)
Inductive event : Type :=
| ELog (lvl : level) (text : list fpart)
| ESend (ch : channel) (bytes : wire)
| EEnsureSend (ch : channel) (bytes : wire)
| EUnmap
| ELink (pad_name : string)
| ELoopQuit.

(** The process: [os.environ], the singleton registry entry of [Config],
    the engine state the callbacks read and change (is the normalization
    sink pad linked, the probes attached, by pad name, is the main loop
    still running), and the trace of effects. *)
Record world : Type := {
  environ : gmap string string;
  instances : option Config;
  is_linked : bool;
  probes : list string;
  running : bool;
  trace : list event
}.

(** Computations over the process. *)
Definition M (A : Type) : Type := world -> outcome A * world.

Definition ret {A} (a : A) : M A := fun w => (Return a, w).

Definition bind {A B} (c : M A) (k : A -> M B) : M B :=
  fun w =>
    match c w with
    | (Return a, w') => k a w'
    | (Raise e, w') => (Raise e, w')
    | (Exit n, w') => (Exit n, w')
    end.

Notation "'let*' x ':=' c 'in' k" := (bind c (fun x => k))
  (at level 10, x name, c at level 100, k at level 200, only parsing).
Notation "c ;;; k" := (bind c (fun _ => k))
  (at level 100, k at level 200, right associativity, only parsing).

Definition raise {A} (e : exn) : M A := fun w => (Raise e, w).

Definition sys_exit {A} (code : Z) : M A := fun w => (Exit code, w).

Definition lift {A} (o : outcome A) : M A := fun w => (o, w).

Definition emit (e : event) : M unit :=
  fun w =>
    (Return tt,
     {| environ := environ w; instances := instances w;
        is_linked := is_linked w; probes := probes w; running := running w;
        trace := trace w ++ [e] |}).

Definition set_environ (env : gmap string string) (w : world) : world :=
  {| environ := env; instances := instances w;
     is_linked := is_linked w; probes := probes w; running := running w;
     trace := trace w |}.

Definition set_instances (c : option Config) (w : world) : world :=
  {| environ := environ w; instances := c;
     is_linked := is_linked w; probes := probes w; running := running w;
     trace := trace w |}.

Definition set_is_linked (b : bool) (w : world) : world :=
  {| environ := environ w; instances := instances w;
     is_linked := b; probes := probes w; running := running w;
     trace := trace w |}.

Definition set_probes (ps : list string) (w : world) : world :=
  {| environ := environ w; instances := instances w;
     is_linked := is_linked w; probes := ps; running := running w;
     trace := trace w |}.

Definition set_running (b : bool) (w : world) : world :=
  {| environ := environ w; instances := instances w;
     is_linked := is_linked w; probes := probes w; running := b;
     trace := trace w |}.

(** [try: body except E: handler] for the exceptions [handles] selects. *)
Definition try_except {A} (body : M A) (handles : exn -> bool) (handler : M A) : M A :=
  fun w =>
    match body w with
    | (Raise e, w') => if handles e then handler w' else (Raise e, w')
    | r => r
    end.

(** [try: body except: handler]: a bare [except] also catches [SystemExit]. *)
Definition try_except_all {A} (body : M A) (handler : M A) : M A :=
  fun w =>
    match body w with
    | (Return a, w') => (Return a, w')
    | (_, w') => handler w'
    end.

(** [for _ in xs: body]. *)
Fixpoint for_each {A} (xs : list A) (body : A -> M unit) : M unit :=
  match xs with
  | [] => ret tt
  | x :: rest => body x ;;; for_each rest body
  end.

(** Reading and changing the engine state. *)
Definition ask {A} (f : world -> A) : M A := fun w => (Return (f w), w).

Definition engine (f : world -> world) : M unit := fun w => (Return tt, f w).

Definition logger (lvl : level) (text : list fpart) : M unit := emit (ELog lvl text).

(** [os.environ.get(name, None)]. *)
Definition os_environ_get (name : string) : M (option string) :=
  ask (fun w => environ w !! name).

(** [o[key]] for a [str] key: only a [dict] can be subscripted this way. *)
Definition getitem (o : pyval) (key : string) : M pyval :=
  match o with
  | VDict d =>
      match d !! key with
      | Some v => ret v
      | None => raise KeyError
      end
  | _ => raise TypeError
  end.

(** The converters config.py passes, applied to an environment string. *)
Definition py_str (s : string) : outcome pyval := Return (VStr s).

Definition py_bool (s : string) : outcome pyval :=
  Return (VBool (negb (String.eqb s ""))).

Definition py_int `{Builtins} (s : string) : outcome pyval :=
  match int_of_str s with
  | Some n => Return (VInt n)
  | None => Raise ValueError
  end.

Definition dquote : string := String (ascii_of_nat 34) EmptyString.

(** ** config.py *)

Definition ENV_PREFIX : string := "PIPELESS".

Definition is_KeyError (e : exn) : bool :=
  match e with
  | KeyError => true
  | _ => false
  end.

Definition prioritized_config (config : pyval) (path env_var_name : string)
    (convert_to : string -> outcome pyval) (required : bool) : M pyval :=
  let* value := os_environ_get env_var_name in
  match value with
  | None =>
      try_except (getitem config path) is_KeyError
        (if required then
           logger ERR [FLit env_var_name; FLit " env var or "; FLit path;
                       FLit " in config file option is required!"] ;;;
           sys_exit 1
         else ret VNone)
  | Some value => lift (convert_to value)
  end.

Definition Address___init__ (address_dict : pyval) (env_prefix : string) : M Address :=
  let* host := prioritized_config address_dict "host" (env_prefix +:+ "_HOST") py_str true in
  let* port := prioritized_config address_dict "port" (env_prefix +:+ "_PORT") py_str true in
  ret {| _host := host; _port := port |}.

(** [self._uri.split(':')]: only a [str] has the method. *)
Definition split (uri : pyval) (sep : ascii) : M (list string) :=
  match uri with
  | VStr s => ret (str_split sep s)
  | _ => raise AttributeError
  end.

(** [xs[i]] on a list. *)
Definition list_getitem (xs : list string) (i : nat) : M string :=
  match xs !! i with
  | Some x => ret x
  | None => raise IndexError
  end.

Definition Video___init__ (video_dict : pyval) (env_prefix : string) : M Video :=
  let* enable := prioritized_config video_dict "enable" (env_prefix +:+ "_ENABLE") py_bool true in
  let* uri := prioritized_config video_dict "uri" (env_prefix +:+ "_URI") py_str false in
  if py_eq_str uri "screen" then
    ret {| _enable := enable; _uri := uri; _protocol := "screen"; _location := "screen" |}
  else
    try_except_all
      (let* uri_split := split uri ":" in
       let* protocol := list_getitem uri_split 0 in
       let* location := list_getitem uri_split 1 in
       ret {| _enable := enable; _uri := uri; _protocol := protocol; _location := location |})
      (logger ERR [FLit ("Wrong or missing video URI config! Ensure it starts with the protocol. Example: "
                         +:+ dquote +:+ "file://" +:+ dquote +:+ ", "
                         +:+ dquote +:+ "https://" +:+ dquote +:+ ", etc")] ;;;
       sys_exit 1).

Definition is_enabled (v : Video) : pyval := _enable v.
Definition get_uri (v : Video) : pyval := _uri v.
Definition get_uri_protocol (v : Video) : string := _protocol v.
Definition get_uri_location (v : Video) : string := _location v.

Definition Input___init__ (input_dict : pyval) : M Input :=
  let* video_dict := getitem input_dict "video" in
  let* video := Video___init__ video_dict (ENV_PREFIX +:+ "_INPUT_VIDEO") in
  let* address_dict := getitem input_dict "address" in
  let* address := Address___init__ address_dict (ENV_PREFIX +:+ "_INPUT_ADDRESS") in
  ret {| Input_video := video; Input_address := address |}.

Definition Output___init__ (output_dict : pyval) : M Output :=
  let* video_dict := getitem output_dict "video" in
  let* video := Video___init__ video_dict (ENV_PREFIX +:+ "_OUTPUT_VIDEO") in
  let* address_dict := getitem output_dict "address" in
  let* address := Address___init__ address_dict (ENV_PREFIX +:+ "_OUTPUT_ADDRESS") in
  ret {| Output_video := video; Output_address := address |}.

Definition Config___init__ `{Builtins} (config : pyval) : M Config :=
  let* log_level := prioritized_config config "log_level" (ENV_PREFIX +:+ "_LOG_LEVEL") py_str true in
  let* log_level := (if negb (py_eq_str log_level "INFO")
                   && negb (py_eq_str log_level "DEBUG")
                   && negb (py_eq_str log_level "WARN")
                then
                  logger WARN [FLit "Unrecognized log level: "; FVal log_level;
                               FLit ". Must be INFO, WARN or DEBUG. Falling back to DEBUG"] ;;;
                  ret (VStr "DEBUG")
                else ret log_level) in
  let* input_dict := getitem config "input" in
  let* input := Input___init__ input_dict in
  let* output_dict := getitem config "output" in
  let* output := Output___init__ output_dict in
  let* n_workers := prioritized_config config "n_workers" (ENV_PREFIX +:+ "_N_WORKERS") py_int true in
  ret {| _log_level := log_level; _input := input; _output := output; _n_workers := n_workers |}.

Definition get_input (c : Config) : Input := _input c.
Definition get_output (c : Config) : Output := _output c.
Definition get_log_level (c : Config) : pyval := _log_level c.
Definition get_n_workers (c : Config) : pyval := _n_workers c.

(** Modelled from the spec: the metaclass [Singleton] of
    [pipeless_ai.lib.singleton] is not under src/.  The configuration is a
    process-wide singleton constructed exactly once; a later attempt to
    construct it yields the instance of the first construction.  So a call
    of the class runs [__init__] only while the registry holds no instance,
    and records the instance when [__init__] returns. *)
Definition Singleton___call__ (init : pyval -> M Config) (arg : pyval) : M Config :=
  fun w =>
    match instances w with
    | Some c => (Return c, w)
    | None =>
        match init arg w with
        | (Return c, w') => (Return c, set_instances (Some c) w')
        | r => r
        end
    end.

(** [Config(config)]. *)
Definition Config___call__ `{Builtins} (config : pyval) : M Config :=
  Singleton___call__ Config___init__ config.

(** ** input.py *)

(** [np.ndarray(shape=(height, width, 3), dtype=np.uint8, buffer=data)]:
    a view of the first [height * width * 3] bytes; a negative dimension is a
    [ValueError], a buffer that is too small a [TypeError]. *)
Definition np_ndarray (height width : Z) (data : list Byte.byte) : M (list Byte.byte) :=
  if (height <? 0) || (width <? 0) then raise ValueError
  else if Z.of_nat (length data) <? height * width * 3 then raise TypeError
  else ret (take (Z.to_nat (height * width * 3)) data).

(** A method call on an object that may be [None]. *)
Definition attr_of {A} (o : option A) : M A :=
  match o with
  | Some a => ret a
  | None => raise AttributeError
  end.

Definition on_new_sample (sink : AppSink) : M FlowReturn :=
  match pull_sample sink with
  | None =>
      logger ERR [FLit "Sample is None!"] ;;;
      ret FlowERROR
  | Some sample =>
      logger DEBUG [FLit "Sample caps: "; FCaps (get_caps sample)] ;;;
      match get_buffer sample with
      | None =>
          logger ERR [FLit "Buffer is None!"] ;;;
          ret FlowERROR
      | Some buffer =>
          if negb (map_success buffer) then
            logger ERR [FLit "Getting multimedia data from the buffer did not success."] ;;;
            ret FlowERROR
          else
            let* caps := attr_of (get_caps sample) in
            let* structure := attr_of (get_structure_0 caps) in
            match structure !! "width", structure !! "height" with
            | Some width, Some height =>
                let* ndframe := np_ndarray height width (map_data buffer) in
                let msg := RgbImageMsg width height ndframe
                             (dts buffer) (pts buffer) (duration buffer) in
                let s_msg := serialize msg in
                emit (ESend InputPushSocket s_msg) ;;;
                emit EUnmap ;;;
                ret FlowOK
            | _, _ => raise TypeError
            end
      end
  end.

(** [range(n)]: an [int] (or a [bool], which is one) is needed. *)
Definition range (n : pyval) : M (list Z) :=
  match n with
  | VInt n => ret (Z.of_nat <$> seq 0 (Z.to_nat n))
  | VBool b => ret (Z.of_nat <$> seq 0 (if b then 1 else 0)%nat)
  | _ => raise TypeError
  end.

(** [debug if debug else 'none']. *)
Definition debug_or_none (debug : option string) : string :=
  match debug with
  | Some d => if String.eqb d "" then "none" else d
  | None => "none"
  end.

(** [loop.quit()]. *)
Definition loop_quit : M unit :=
  engine (set_running false) ;;;
  emit ELoopQuit.

Definition on_bus_message `{Builtins} (msg : Message) : M bool :=
  match msg with
  | EOS =>
      logger INFO [FLit "End of stream reached."] ;;;
      let m_socket := InputOutputSocket in
      let w_socket := InputPushSocket in
      let m_msg := serialize EndOfStreamMsg in
      logger DEBUG [FLit "Notifying EOS to output"] ;;;
      emit (ESend m_socket m_msg) ;;;
      let* config := Config___call__ VNone in
      let* workers := range (get_n_workers config) in
      for_each workers (fun _ =>
        logger INFO [FLit "Notifying EOS to worker"] ;;;
        emit (EEnsureSend w_socket m_msg)) ;;;
      ret true
  | ERROR src_name err_message debug =>
      logger ERR [FLit "Error received from element "; FLit src_name;
                  FLit ": "; FLit err_message] ;;;
      logger ERR [FLit "Debugging information: "; FLit (debug_or_none debug)] ;;;
      loop_quit ;;;
      ret true
  | WARNING src_name err_message debug =>
      logger WARN [FLit "Warning received from element "; FLit src_name;
                   FLit ": "; FLit err_message] ;;;
      logger WARN [FLit "Debugging information: "; FLit (debug_or_none debug)] ;;;
      ret true
  | STATE_CHANGED old_state new_state pending_state =>
      logger DEBUG [FLit "New pipeline state: "; FState new_state] ;;;
      ret true
  | TAG tags =>
      logger INFO [FLit "Tags parsed: "; FLit tags] ;;;
      let t_socket := InputOutputSocket in
      let t_msg := StreamTagsMsg tags in
      emit (ESend t_socket (serialize t_msg)) ;;;
      ret true
  | OTHER => ret true
  end.

Definition on_pad_upstream_event (pad : Pad) : M PadProbeReturn :=
  match get_current_caps pad with
  | Some caps =>
      logger DEBUG [FLit ("[green]uridecodebin pad " +:+ dquote); FLit (get_name pad);
                    FLit (dquote +:+ " with caps: "); FCaps (Some caps);
                    FLit "[/green]"] ;;;
      let m_socket := InputOutputSocket in
      let m_msg := StreamCapsMsg (to_string caps) in
      emit (ESend m_socket (serialize m_msg)) ;;;
      ret ProbeREMOVE
  | None => ret ProbeOK
  end.

(** [pad.add_probe(EVENT_UPSTREAM, on_pad_upstream_event, pad)]. *)
Definition handle_caps_change (pad : Pad) : M unit :=
  engine (fun w => set_probes (probes w ++ [get_name pad]) w).

Definition on_pad_added (pad : Pad) (callbacks : list (Pad -> M unit)) : M unit :=
  for_each callbacks (fun callback => callback pad).

(** [pad.link(videoconvert_sink_pad)], called on a sink pad that is not
    linked: the attempt is made, and the sink pad becomes linked when the
    engine accepts it.  The code drops the returned status. *)
Definition link (pad : Pad) : M unit :=
  emit (ELink (get_name pad)) ;;;
  engine (set_is_linked (link_accepted pad)).

(** The closure [pad_added_callback] of [input()], over the static sink pad
    of the normalization stage. *)
Definition pad_added_callback (pad : Pad) : M unit :=
  let* linked := ask is_linked in
  if negb linked then
    logger INFO [FLit "Linking uridecoderbin pad to videoconvert pad"] ;;;
    link pad
  else
    logger WARN [FLit "Video converter pad is already linked. Skipping uridecoder link"].

(** *** The callbacks under the engine

    What [input()] connects: [new-sample] to [on_new_sample], the bus to
    [on_bus_message], [pad-added] to [on_pad_added] with the two callbacks,
    and, through [handle_caps_change], upstream events of a pad to the probes
    attached to it. *)
Inductive Signal : Type :=
| NewSample (sink : AppSink)
| BusMessage (msg : Message)
| PadAdded (pad : Pad)
| UpstreamEvent (pad : Pad).

(** The engine runs the probes attached to the pad in turn; a probe that
    answers [REMOVE] is detached, one that answers [OK] stays. *)
Fixpoint run_probes (pad : Pad) (attached : list string) : M (list string) :=
  match attached with
  | [] => ret []
  | p :: rest =>
      if String.eqb p (get_name pad) then
        let* r := on_pad_upstream_event pad in
        let* rest' := run_probes pad rest in
        ret (match r with
             | ProbeREMOVE => rest'
             | ProbeOK => p :: rest'
             end)
      else
        let* rest' := run_probes pad rest in
        ret (p :: rest')
  end.

Definition upstream_event (pad : Pad) : M unit :=
  let* attached := ask probes in
  let* remaining := run_probes pad attached in
  engine (set_probes remaining).

Definition dispatch `{Builtins} (s : Signal) : M unit :=
  match s with
  | NewSample sink => on_new_sample sink ;;; ret tt
  | BusMessage msg => on_bus_message msg ;;; ret tt
  | PadAdded pad => on_pad_added pad [pad_added_callback; handle_caps_change]
  | UpstreamEvent pad => upstream_event pad
  end.

(** [loop.run()] with the pipeline playing, over the signals the engine
    delivers in the order it delivers them: an exception of a callback is
    reported and the run goes on, [sys.exit] ends the process, and once the
    loop has been quit the pipeline is torn down and nothing more is
    delivered. *)
Fixpoint loop_run `{Builtins} (signals : list Signal) (w : world) : world :=
  match signals with
  | [] => w
  | s :: rest =>
      if running w then
        match dispatch s w with
        | (Exit _, w') => w'
        | (_, w') => loop_run rest w'
        end
      else w
  end.

(** ** Reading traces *)

(** The process after some more effects. *)
Definition extend (w : world) (evs : list event) : world :=
  {| environ := environ w; instances := instances w;
     is_linked := is_linked w; probes := probes w; running := running w;
     trace := trace w ++ evs |}.

Definition is_log (e : event) : bool :=
  match e with
  | ELog _ _ => true
  | _ => false
  end.

Definition is_send (e : event) : bool :=
  match e with
  | ESend _ _ | EEnsureSend _ _ => true
  | _ => false
  end.

(** The sends of a trace, in order, on any channel and by either operation. *)
Definition sends (tr : list event) : list event := List.filter is_send tr.

(** The sends of a trace on one channel. *)
Definition on_channel (ch : channel) (e : event) : bool :=
  match e, ch with
  | ESend InputOutputSocket _, InputOutputSocket
  | EEnsureSend InputOutputSocket _, InputOutputSocket
  | ESend InputPushSocket _, InputPushSocket
  | EEnsureSend InputPushSocket _, InputPushSocket => true
  | _, _ => false
  end.

Definition sent_on (ch : channel) (tr : list event) : list event :=
  List.filter (on_channel ch) tr.

(** A send, by either operation, of an [EndOfStream] message. *)
Definition is_eos_send (e : event) : bool :=
  match e with
  | ESend _ (serialize EndOfStreamMsg)
  | EEnsureSend _ (serialize EndOfStreamMsg) => true
  | _ => false
  end.

Definition eos_sends (tr : list event) : list event := List.filter is_eos_send tr.

(** A send by the reliable operation, [ensure_send]. *)
Definition is_ensure_send (e : event) : bool :=
  match e with
  | EEnsureSend _ _ => true
  | _ => false
  end.

(** A frame on the worker channel, or a [Caps] or [Tags] message on the
    output channel. *)
Definition is_frame_or_lifecycle (e : event) : bool :=
  match e with
  | ESend InputPushSocket (serialize (RgbImageMsg _ _ _ _ _ _))
  | EEnsureSend InputPushSocket (serialize (RgbImageMsg _ _ _ _ _ _))
  | ESend InputOutputSocket (serialize (StreamCapsMsg _))
  | EEnsureSend InputOutputSocket (serialize (StreamCapsMsg _))
  | ESend InputOutputSocket (serialize (StreamTagsMsg _))
  | EEnsureSend InputOutputSocket (serialize (StreamTagsMsg _)) => true
  | _ => false
  end.

Definition is_caps_send (e : event) : bool :=
  match e with
  | ESend InputOutputSocket (serialize (StreamCapsMsg _))
  | EEnsureSend InputOutputSocket (serialize (StreamCapsMsg _)) => true
  | _ => false
  end.

Definition is_link (e : event) : bool :=
  match e with
  | ELink _ => true
  | _ => false
  end.

(** The link attempts of a trace onto the normalization stage's input. *)
Definition link_attempts (tr : list event) : list event := List.filter is_link tr.

Definition is_EOS_signal (s : Signal) : bool :=
  match s with
  | BusMessage EOS => true
  | _ => false
  end.

(** The block of sends one [EOS] bus event produces for [n] workers. *)
Definition eos_block (n : nat) : list event :=
  ESend InputOutputSocket (serialize EndOfStreamMsg)
    :: repeat (EEnsureSend InputPushSocket (serialize EndOfStreamMsg)) n.

(** The frame-capture callback meets one of its three failures: no sample,
    no buffer, or a buffer that cannot be mapped. *)
Definition capture_fails (sink : AppSink) : bool :=
  match pull_sample sink with
  | None => true
  | Some sample =>
      match get_buffer sample with
      | None => true
      | Some buffer => negb (map_success buffer)
      end
  end.

(** The pads of a sequence up to and including the first one whose link the
    engine accepts. *)
Fixpoint until_accepted (pads : list Pad) : list Pad :=
  match pads with
  | [] => []
  | p :: rest => if link_accepted p then [p] else p :: until_accepted rest
  end.

(** [pad_added_callback] for each pad of a sequence, in order. *)
Definition pads_added (pads : list Pad) : M unit :=
  for_each pads pad_added_callback.

(** The upstream events of one connection point, in order; each entry is the
    pad as the engine shows it at that event. *)
Definition upstream_events (history : list Pad) : M unit :=
  for_each history upstream_event.

(** The first-colon reading of a URI the specification describes: the text
    before the first colon and all the text after it. *)
Fixpoint split_first_colon (s : string) : option (string * string) :=
  match s with
  | EmptyString => None
  | String c rest =>
      if Ascii.eqb c ":" then Some (EmptyString, rest)
      else match split_first_colon rest with
           | Some (p, l) => Some (String c p, l)
           | None => None
           end
  end.

(** ** Concrete inputs *)

Definition ascii_builtins : Builtins := {| int_of_str := ascii_int |}.

Definition demo_video (uri : string) : pyval :=
  VDict (list_to_map [("enable", VBool true); ("uri", VStr uri)]).

Definition demo_address : pyval :=
  VDict (list_to_map [("host", VStr "localhost"); ("port", VInt 1234)]).

Definition demo_dict (n_workers : pyval) : gmap string pyval :=
  list_to_map
    [("log_level", VStr "INFO");
     ("input", VDict (list_to_map [("video", demo_video "file:///a/b");
                                   ("address", demo_address)]));
     ("output", VDict (list_to_map [("video", demo_video "screen");
                                    ("address", demo_address)]));
     ("n_workers", n_workers)].

Definition demo_document (n_workers : pyval) : pyval := VDict (demo_dict n_workers).

(** The configuration that document resolves to with an empty environment. *)
Definition demo_config (n_workers : pyval) : Config :=
  {| _log_level := VStr "INFO";
     _input :=
       {| Input_video := {| _enable := VBool true; _uri := VStr "file:///a/b";
                            _protocol := "file"; _location := "///a/b" |};
          Input_address := {| _host := VStr "localhost"; _port := VInt 1234 |} |};
     _output :=
       {| Output_video := {| _enable := VBool true; _uri := VStr "screen";
                             _protocol := "screen"; _location := "screen" |};
          Output_address := {| _host := VStr "localhost"; _port := VInt 1234 |} |};
     _n_workers := n_workers |}.

(** A process at start: nothing in the environment, nothing constructed. *)
Definition fresh : world :=
  {| environ := ∅; instances := None; is_linked := false; probes := [];
     running := true; trace := [] |}.

(** The same with [PIPELESS_N_WORKERS=4] in the environment. *)
Definition fresh_env4 : world :=
  {| environ := {[ "PIPELESS_N_WORKERS" := "4" ]}; instances := None;
     is_linked := false; probes := []; running := true; trace := [] |}.

(** The process once [Config] has been constructed from the document with
    two workers. *)
Definition configured : world :=
  snd (@Config___call__ ascii_builtins (demo_document (VInt 2)) fresh).

Definition demo_caps : Caps :=
  {| to_string := "video/x-raw,format=RGB,width=1,height=1";
     get_structure_0 := Some (list_to_map [("width", 1); ("height", 1)]) |}.

(** A sink holding one 1x1 RGB frame. *)
Definition demo_sink : AppSink :=
  {| pull_sample :=
       Some {| get_caps := Some demo_caps;
               get_buffer :=
                 Some {| map_success := true;
                         map_data := [Byte.x00; Byte.x01; Byte.x02];
                         dts := 0; pts := 0; duration := 40 |} |} |}.

(** A sink whose buffer cannot be mapped. *)
Definition unmappable_sink : AppSink :=
  {| pull_sample :=
       Some {| get_caps := Some demo_caps;
               get_buffer :=
                 Some {| map_success := false; map_data := [];
                         dts := 0; pts := 0; duration := 40 |} |} |}.

(** An audio pad, which the normalization stage refuses, and a video pad. *)
Definition audio_pad : Pad :=
  {| get_name := "audio_0"; get_current_caps := None; link_accepted := false |}.

Definition video_pad : Pad :=
  {| get_name := "video_0"; get_current_caps := None; link_accepted := true |}.

Definition video_pad_negotiated : Pad :=
  {| get_name := "video_0"; get_current_caps := Some demo_caps; link_accepted := true |}.

(** ** What a computation may do

    [quiet ok c]: whatever the process, [c] only appends events that [ok]
    allows, leaves the environment and the singleton registry as they are,
    and does not exit. *)
Definition quiet {A} (ok : event -> bool) (c : M A) : Prop :=
  forall w, exists evs,
    trace (snd (c w)) = trace w ++ evs /\
    forallb ok evs = true /\
    environ (snd (c w)) = environ w /\
    instances (snd (c w)) = instances w /\
    forall n, fst (c w) <> Exit n.

(** Everything one [EOS] bus event appends to the trace for [n] workers. *)
Definition eos_events (n : nat) : list event :=
  [ELog INFO [FLit "End of stream reached."];
   ELog DEBUG [FLit "Notifying EOS to output"];
   ESend InputOutputSocket (serialize EndOfStreamMsg)]
  ++ flat_map (fun _ => [ELog INFO [FLit "Notifying EOS to worker"];
                         EEnsureSend InputPushSocket (serialize EndOfStreamMsg)])
       (seq 0 n).

(** What a computation appends to the trace of a process. *)
Definition effects {A} (c : M A) (w : world) : list event :=
  drop (length (trace w)) (trace (snd (c w))).

(** What the signals after an [EOS] bus event append to the trace. *)
Definition after_EOS `{Builtins} (w : world) (later : list Signal) : list event :=
  let w1 := loop_run [BusMessage EOS] w in
  drop (length (trace w1)) (trace (loop_run later w1)).

(** Nothing but [EndOfStream] reaches a recipient once the [EOS] bus event
    has been handled: no frame on the worker channel, no [Caps] or [Tags]
    message on the output channel. *)
Definition silent_after_EOS `{Builtins} (w : world) (later : list Signal) : bool :=
  forallb (fun e => negb (is_frame_or_lifecycle e)) (after_EOS w later).

(** Every [EndOfStream] send of the [EOS] handler uses [ensure_send]. *)
Definition EOS_sends_all_reliable `{Builtins} (w : world) : bool :=
  forallb (fun e => implb (is_eos_send e) (is_ensure_send e))
    (effects (on_bus_message EOS) w).

(** At most one link attempt reaches the normalization stage. *)
Definition single_link_attempt (w : world) (pads : list Pad) : bool :=
  Nat.leb (length (link_attempts (effects (pads_added pads) w))) 1.

Definition is_warning (e : event) : bool :=
  match e with
  | ELog WARN _ => true
  | _ => false
  end.

(** [steady c]: [c] leaves the environment as it is. *)
Definition steady {A} (c : M A) : Prop :=
  forall w, environ (snd (c w)) = environ w.

(** ** The rest of [class Address] *)

(** [int(x)] for a configuration value: a [str] is parsed, an [int] or a
    [bool] is taken as it is, anything else is a [TypeError]. *)
Definition py_int_of `{Builtins} (x : pyval) : outcome Z :=
  match x with
  | VInt n => Return n
  | VBool b => Return (if b then 1 else 0)
  | VStr s =>
      match int_of_str s with
      | Some n => Return n
      | None => Raise ValueError
      end
  | VNone | VDict _ => Raise TypeError
  end.

Definition get_host (a : Address) : pyval := _host a.

Definition get_port `{Builtins} (a : Address) : outcome Z := py_int_of (_port a).

(** A configuration with another log level. *)
Definition with_log_level (lvl : pyval) (c : Config) : Config :=
  {| _log_level := lvl; _input := _input c; _output := _output c;
     _n_workers := _n_workers c |}.

(** ** More ways to read values and traces *)

(** Does the string hold a colon? *)
Fixpoint has_colon (s : string) : bool :=
  match s with
  | EmptyString => false
  | String c rest => Ascii.eqb c ":" || has_colon rest
  end.

(** One of the three log levels [Config] accepts. *)
Definition is_log_level (v : pyval) : bool :=
  py_eq_str v "INFO" || py_eq_str v "DEBUG" || py_eq_str v "WARN".

Definition is_str (v : pyval) : bool :=
  match v with
  | VStr _ => true
  | _ => false
  end.

Definition is_dict (v : pyval) : bool :=
  match v with
  | VDict _ => true
  | _ => false
  end.

(** An object [range] accepts. *)
Definition is_int (v : pyval) : bool :=
  match v with
  | VInt _ | VBool _ => true
  | _ => false
  end.

Definition is_unmap (e : event) : bool :=
  match e with
  | EUnmap => true
  | _ => false
  end.

Definition is_ERROR (msg : Message) : bool :=
  match msg with
  | ERROR _ _ _ => true
  | _ => false
  end.

(** What input.py puts on each channel: frames, by [send], and
    [EndOfStream], by [ensure_send], on the worker channel; [EndOfStream],
    [Caps] and [Tags], all by [send], on the output channel. *)
Definition channel_typed (e : event) : bool :=
  match e with
  | ESend InputPushSocket (serialize (RgbImageMsg _ _ _ _ _ _)) => true
  | EEnsureSend InputPushSocket (serialize EndOfStreamMsg) => true
  | ESend InputOutputSocket (serialize EndOfStreamMsg) => true
  | ESend InputOutputSocket (serialize (StreamCapsMsg _)) => true
  | ESend InputOutputSocket (serialize (StreamTagsMsg _)) => true
  | ESend _ _ | EEnsureSend _ _ => false
  | _ => true
  end.

(** The frame-capture callback has all it needs: a sample with a mappable
    buffer and caps whose first structure gives a width and a height that
    are not negative and that the mapped bytes can fill. *)
Definition capture_ready (sink : AppSink) (width height : Z) (buffer : Buffer) : Prop :=
  exists sample caps structure,
    pull_sample sink = Some sample /\
    get_buffer sample = Some buffer /\
    map_success buffer = true /\
    get_caps sample = Some caps /\
    get_structure_0 caps = Some structure /\
    structure !! "width" = Some width /\
    structure !! "height" = Some height /\
    0 <= width /\ 0 <= height /\
    height * width * 3 <= Z.of_nat (length (map_data buffer)).

(** The number of [Caps] messages a trace sends. *)
Definition count_caps_sends (tr : list event) : nat :=
  length (List.filter is_caps_send tr).

(** ** [input()]

    The function that builds the pipeline, registers the callbacks, runs the
    loop and tears everything down.  Besides what the callbacks do, it calls
    into the engine, GLib, the logger set-up and the sockets; those calls are
    recorded as steps next to the effects of the callbacks, in order.  The
    objects it creates are new: the decode stage has no probe yet, the sink
    pad of the normalization stage is not linked, the loop has not been
    quit. *)

Inductive StateChangeReturn : Type := FAILURE | SUCCESS | ASYNC | NO_PREROLL.

(** What can end the [try] block of [input()] besides the exceptions of
    [exn]: the interruption of the process, or any other exception. *)
Inductive raised : Type :=
| Exc (e : exn)
| KeyboardInterrupt
| OtherException.

(** What the engine answers to [input()]: which objects it creates, whether
    it links the static stages, how the state change to PLAYING goes, the
    state of an element when asked, the signals it delivers while the loop
    runs, and what interrupts [loop.run()] when no callback quits the
    loop. *)
Record Engine : Type := {
  Pipeline_new : bool;
  ElementFactory_make : string -> bool;
  videoconvert_link : bool;
  pipeline_set_state_PLAYING : StateChangeReturn;
  element_get_state : string -> StateChangeReturn * State * State;
  delivered : list Signal;
  interrupted_by : raised
}.

(** The calls [input()] makes itself. *)
Inductive call : Type :=
| Gst_init
| update_logger_component (component : string)
| Gst_Pipeline_new (name : string)
| Gst_ElementFactory_make (factory name : string)
| set_property (element property : string) (value : pyval)
| connect (object signal handler : string)
| pipeline_add (element : string)
| element_link (src dst : string)
| get_static_pad (element pad : string)
| GLib_MainLoop
| pipeline_get_bus
| bus_add_signal_watch
| pipeline_set_state (s : State)
| get_state (element : string)
| socket (ch : channel)
| loop_run_call
| traceback_print_exc
| close (ch : channel).

(** A step of [input()]: an effect as the callbacks have them, a call, or
    the debug line that prints the state of an element. *)
Inductive step : Type :=
| Effect (e : event)
| Call (c : call)
| DebugState (element : string) (state : StateChangeReturn * State * State).

Inductive outcomeN (A : Type) : Type :=
| NReturn (a : A)
| NRaise (r : raised)
| NExit (code : Z).
Arguments NReturn {A} a.
Arguments NRaise {A} r.
Arguments NExit {A} code.

(** Computations of [input()]: over the process and the steps so far. *)
Definition N (A : Type) : Type := world * list step -> outcomeN A * (world * list step).

Definition retN {A} (a : A) : N A := fun s => (NReturn a, s).

Definition bindN {A B} (c : N A) (k : A -> N B) : N B :=
  fun s =>
    match c s with
    | (NReturn a, s') => k a s'
    | (NRaise r, s') => (NRaise r, s')
    | (NExit n, s') => (NExit n, s')
    end.

Notation "'let+' x ':=' c 'in' k" := (bindN c (fun x => k))
  (at level 10, x name, c at level 100, k at level 200, only parsing).
Notation "c ;;+ k" := (bindN c (fun _ => k))
  (at level 100, k at level 200, right associativity, only parsing).

Definition raiseN {A} (r : raised) : N A := fun s => (NRaise r, s).

Definition exitN {A} (code : Z) : N A := fun s => (NExit code, s).

Definition stepN (x : step) : N unit := fun s => (NReturn tt, (fst s, snd s ++ [x])).

Definition callN (c : call) : N unit := stepN (Call c).

Definition outcome_to_N {A} (o : outcome A) : outcomeN A :=
  match o with
  | Return a => NReturn a
  | Raise e => NRaise (Exc e)
  | Exit n => NExit n
  end.

(** A computation of the callbacks' kind inside [input()]: what it appends
    to the trace is appended to the steps. *)
Definition liftM {A} (c : M A) : N A :=
  fun s =>
    (outcome_to_N (fst (c (fst s))),
     (snd (c (fst s)), snd s ++ (Effect <$> effects c (fst s)))).

Fixpoint for_eachN {A} (xs : list A) (body : A -> N unit) : N unit :=
  match xs with
  | [] => retN tt
  | x :: rest => body x ;;+ for_eachN rest body
  end.

(** [if failed: logger.error(message); sys.exit(1)]. *)
Definition exit_if (failed : bool) (message : string) : N unit :=
  if failed then liftM (logger ERR [FLit message]) ;;+ exitN 1 else retN tt.

(** [try: body except ...: handler finally: finalizer].  A handler is
    chosen by what was raised; [sys.exit] is not an [Exception] and passes
    the handlers.  The finalizer runs on every way out, and what it raises
    replaces the outcome. *)
Definition try_except_finally {A} (body : N A) (handlers : raised -> option (N A))
    (finalizer : N unit) : N A :=
  fun s =>
    let (r, s1) :=
      match body s with
      | (NRaise x, s') =>
          match handlers x with
          | Some handler => handler s'
          | None => (NRaise x, s')
          end
      | other => other
      end in
    match finalizer s1 with
    | (NReturn _, s2) => (r, s2)
    | (NRaise x, s2) => (NRaise x, s2)
    | (NExit n, s2) => (NExit n, s2)
    end.

(** [loop.run()]: the callbacks run on the signals the engine delivers;
    the call returns when a callback has quit the loop, and is interrupted
    otherwise. *)
Definition loop_run_N `{Builtins} (gst : Engine) : N unit :=
  callN loop_run_call ;;+
  (fun s =>
     let w' := loop_run (delivered gst) (fst s) in
     (if running w' then NRaise (interrupted_by gst) else NReturn tt,
      (w', snd s ++ (Effect <$> drop (length (trace (fst s))) (trace w'))))).

Definition is_FAILURE (r : StateChangeReturn) : bool :=
  match r with
  | FAILURE => true
  | _ => false
  end.

Definition debug_state (gst : Engine) (label element : string) : N unit :=
  callN (get_state element) ;;+
  stepN (DebugState label (element_get_state gst element)).

(** The [try] block of [input()]. *)
Definition input_try `{Builtins} (gst : Engine) : N unit :=
  debug_state gst "uridecodebin" "uridecodebin" ;;+
  debug_state gst "videoconverter" "videoconvert" ;;+
  debug_state gst "appsink" "appsink" ;;+
  callN (socket InputPushSocket) ;;+
  callN (socket InputOutputSocket) ;;+
  loop_run_N gst.

(** Its two [except] clauses: [KeyboardInterrupt] passes, any other
    exception is printed and quits the loop. *)
Definition input_except (x : raised) : option (N unit) :=
  match x with
  | KeyboardInterrupt => Some (retN tt)
  | Exc _ | OtherException => Some (callN traceback_print_exc ;;+ liftM loop_quit)
  end.

(** Its [finally] block. *)
Definition input_finally : N unit :=
  liftM (logger INFO [FLit "Closing pipeline"]) ;;+
  callN (pipeline_set_state NULL) ;;+
  liftM (logger INFO [FLit "Pipeline closed"]) ;;+
  callN (socket InputOutputSocket) ;;+
  callN (close InputOutputSocket) ;;+
  callN (socket InputPushSocket) ;;+
  callN (close InputPushSocket).

Definition input `{Builtins} (gst : Engine) : N unit :=
  let+ config := liftM (Config___call__ VNone) in
  callN Gst_init ;;+
  callN (update_logger_component "INPUT") ;;+
  let uri := get_uri (Input_video (get_input config)) in
  liftM (logger INFO [FLit "Reading video from "; FVal uri]) ;;+
  callN (Gst_Pipeline_new "pipeline") ;;+
  callN (Gst_ElementFactory_make "uridecodebin3" "uridecodebin") ;;+
  liftM (engine (set_probes [])) ;;+
  callN (Gst_ElementFactory_make "videoconvert" "videoconvert") ;;+
  liftM (engine (set_is_linked false)) ;;+
  callN (Gst_ElementFactory_make "appsink" "appsink") ;;+
  exit_if (negb (Pipeline_new gst)) "Failed to create pipeline" ;;+
  exit_if (negb (ElementFactory_make gst "uridecodebin3")) "Failed to create uridecodebin" ;;+
  exit_if (negb (ElementFactory_make gst "videoconvert")) "Failed to create videoconvert" ;;+
  exit_if (negb (ElementFactory_make gst "appsink")) "Failed to create appsink." ;;+
  callN (set_property "appsink" "emit-signals" (VBool true)) ;;+
  callN (connect "appsink" "new-sample" "on_new_sample") ;;+
  callN (set_property "appsink" "caps" (VStr "video/x-raw,format=RGB")) ;;+
  for_eachN ["uridecodebin"; "videoconvert"; "appsink"]
    (fun elem => callN (pipeline_add elem)) ;;+
  callN (element_link "videoconvert" "appsink") ;;+
  exit_if (negb (videoconvert_link gst)) "Failed to link appsink to videoconvert" ;;+
  callN (get_static_pad "videoconvert" "sink") ;;+
  callN (set_property "uridecodebin" "uri" uri) ;;+
  callN (connect "uridecodebin" "pad-added" "on_pad_added") ;;+
  callN GLib_MainLoop ;;+
  liftM (engine (set_running true)) ;;+
  callN pipeline_get_bus ;;+
  callN bus_add_signal_watch ;;+
  callN (connect "bus" "message" "on_bus_message") ;;+
  liftM (logger INFO [FLit "Starting pipeline"]) ;;+
  callN (pipeline_set_state PLAYING) ;;+
  exit_if (is_FAILURE (pipeline_set_state_PLAYING gst))
    "[red]Unable to set the pipeline to the playing state.[/red]" ;;+
  try_except_finally (input_try gst) input_except input_finally.

(** The engine creates everything, links the static stages and starts. *)
Definition starts (gst : Engine) : bool :=
  Pipeline_new gst
  && ElementFactory_make gst "uridecodebin3"
  && ElementFactory_make gst "videoconvert"
  && ElementFactory_make gst "appsink"
  && videoconvert_link gst
  && negb (is_FAILURE (pipeline_set_state_PLAYING gst)).

(** The steps with which the [try] block opens, before the loop runs. *)
Definition opening (gst : Engine) : list step :=
  [Call (get_state "uridecodebin");
   DebugState "uridecodebin" (element_get_state gst "uridecodebin");
   Call (get_state "videoconvert");
   DebugState "videoconverter" (element_get_state gst "videoconvert");
   Call (get_state "appsink");
   DebugState "appsink" (element_get_state gst "appsink");
   Call (socket InputPushSocket);
   Call (socket InputOutputSocket);
   Call loop_run_call].

(** The steps with which [input()] tears the pipeline down. *)
Definition teardown : list step :=
  [Effect (ELog INFO [FLit "Closing pipeline"]);
   Call (pipeline_set_state NULL);
   Effect (ELog INFO [FLit "Pipeline closed"]);
   Call (socket InputOutputSocket);
   Call (close InputOutputSocket);
   Call (socket InputPushSocket);
   Call (close InputPushSocket)].

(** A step that belongs to the running or the tearing down of the
    pipeline: a socket opened or closed, the loop run, the pipeline set to
    NULL, or anything sent. *)
Definition is_run_or_teardown (x : step) : bool :=
  match x with
  | Call (socket _) | Call (close _) | Call loop_run_call
  | Call (pipeline_set_state NULL) | Call traceback_print_exc => true
  | Effect e => is_send e
  | _ => false
  end.

Definition is_error_line (x : step) : bool :=
  match x with
  | Effect (ELog ERR _) => true
  | _ => false
  end.

Definition is_print_exc (x : step) : bool :=
  match x with
  | Call traceback_print_exc => true
  | _ => false
  end.

(** An engine that starts and delivers the given signals. *)
Definition demo_engine (signals : list Signal) (interrupt : raised) : Engine :=
  {| Pipeline_new := true;
     ElementFactory_make := fun _ => true;
     videoconvert_link := true;
     pipeline_set_state_PLAYING := ASYNC;
     element_get_state := fun _ => (ASYNC, READY, PLAYING);
     delivered := signals;
     interrupted_by := interrupt |}.

(** An engine without the appsink element. *)
Definition engine_without_appsink : Engine :=
  {| Pipeline_new := true;
     ElementFactory_make := fun factory => negb (String.eqb factory "appsink");
     videoconvert_link := true;
     pipeline_set_state_PLAYING := ASYNC;
     element_get_state := fun _ => (ASYNC, READY, PLAYING);
     delivered := [];
     interrupted_by := KeyboardInterrupt |}.

(** ** What the configuration reads *)

(** The environment variables [Config] looks at. *)
Definition config_variables : list string :=
  ["PIPELESS_LOG_LEVEL";
   "PIPELESS_INPUT_VIDEO_ENABLE"; "PIPELESS_INPUT_VIDEO_URI";
   "PIPELESS_INPUT_ADDRESS_HOST"; "PIPELESS_INPUT_ADDRESS_PORT";
   "PIPELESS_OUTPUT_VIDEO_ENABLE"; "PIPELESS_OUTPUT_VIDEO_URI";
   "PIPELESS_OUTPUT_ADDRESS_HOST"; "PIPELESS_OUTPUT_ADDRESS_PORT";
   "PIPELESS_N_WORKERS"].

(** [reads P c]: the outcome of [c] and everything it does depend on the
    environment only through the variables [P] selects. *)
Definition reads (P : string -> Prop) {A} (c : M A) : Prop :=
  forall w env,
    (forall k, P k -> env !! k = environ w !! k) ->
    c (set_environ env w) = (fst (c w), set_environ env (snd (c w))).

(** * Properties *)

Example str_split_file : str_split ":" "file:///a/b" = ["file"; "///a/b"].
Proof. reflexivity. Qed.

Example str_split_two_colons :
  str_split ":" "rtsp://cam:8554/live" = ["rtsp"; "//cam"; "8554/live"].
Proof. reflexivity. Qed.

Example ascii_int_12 : ascii_int "12" = Some 12.
Proof. reflexivity. Qed.

(** ** Basic facts about computations *)

Lemma extend_nil (w : world) : extend w [] = w.
Proof. destruct w; unfold extend; simpl. by rewrite app_nil_r. Qed.

Lemma extend_extend (w : world) (a b : list event) :
  extend (extend w a) b = extend w (a ++ b).
Proof. unfold extend; simpl. by rewrite app_assoc. Qed.

Lemma emit_extend (e : event) (w : world) : emit e w = (Return tt, extend w [e]).
Proof. reflexivity. Qed.

Lemma logger_extend (lvl : level) (text : list fpart) (w : world) :
  logger lvl text w = (Return tt, extend w [ELog lvl text]).
Proof. reflexivity. Qed.

(** A returning [bind] splits into its two returning halves. *)
Lemma bind_Return {A B} (c : M A) (k : A -> M B) (w w' : world) (b : B) :
  bind c k w = (Return b, w') ->
  exists a w1, c w = (Return a, w1) /\ k a w1 = (Return b, w').
Proof.
  unfold bind. destruct (c w) as [[a | e | n] w1]; intros Hk; try discriminate.
  by exists a, w1.
Qed.

(** ** The configuration resolver *)

Section Resolver.
Variables (config : pyval) (path env_var_name : string).
Variables (convert_to : string -> outcome pyval) (required : bool).
Variable w : world.

Lemma prioritized_config_env (value : string) :
  environ w !! env_var_name = Some value ->
  prioritized_config config path env_var_name convert_to required w
  = (convert_to value, w).
Proof.
  intros Henv. unfold prioritized_config, bind, os_environ_get, ask, lift.
  rewrite Henv. by destruct (convert_to value).
Qed.

Lemma prioritized_config_document (d : gmap string pyval) (v : pyval) :
  config = VDict d ->
  environ w !! env_var_name = None ->
  d !! path = Some v ->
  prioritized_config config path env_var_name convert_to required w = (Return v, w).
Proof.
  intros -> Henv Hdoc.
  unfold prioritized_config, bind, os_environ_get, ask, try_except, getitem.
  by rewrite Henv, Hdoc.
Qed.

(** The resolver leaves the environment, the registry and the engine
    alone; at most it logs before exiting. *)
Lemma prioritized_config_world (r : outcome pyval) (w' : world) :
  prioritized_config config path env_var_name convert_to required w = (r, w') ->
  exists evs, w' = extend w evs.
Proof.
  unfold prioritized_config, bind, os_environ_get, ask, try_except, getitem, lift.
  destruct (environ w !! env_var_name) as [value |].
  - destruct (convert_to value); intros [= <- <-]; exists []; by rewrite extend_nil.
  - destruct config as [| | | | d];
      try (intros [= <- <-]; exists []; by rewrite extend_nil).
    destruct (d !! path); simpl.
    + intros [= <- <-]; exists []; by rewrite extend_nil.
    + destruct required; simpl.
      * intros [= <- <-]. by eexists.
      * intros [= <- <-]; exists []; by rewrite extend_nil.
Qed.
End Resolver.

(** ** URIs *)

Lemma str_split_nonempty (sep : ascii) (s : string) : str_split sep s <> [].
Proof.
  destruct s as [| c rest]; simpl; [done |].
  destruct (Ascii.eqb c sep); [done |].
  by destruct (str_split sep rest).
Qed.

(** With no colon in it, a string splits into itself alone. *)
Lemma str_split_no_colon (s : string) :
  split_first_colon s = None -> str_split ":" s = [s].
Proof.
  induction s as [| c rest IH]; simpl; [done |].
  destruct (Ascii.eqb c ":"); [done |].
  destruct (split_first_colon rest) as [[p l] |]; [done |].
  intros _. by rewrite IH.
Qed.

(** The first part of the split is the text before the first colon, and the
    parts after it are the split of the remainder. *)
Lemma str_split_first_colon (s p l : string) :
  split_first_colon s = Some (p, l) -> str_split ":" s = p :: str_split ":" l.
Proof.
  revert p l. induction s as [| c rest IH]; simpl; intros p l; [done |].
  destruct (Ascii.eqb c ":").
  - by intros [= <- <-].
  - destruct (split_first_colon rest) as [[p' l'] |]; [| done].
    intros [= <- <-]. by rewrite (IH p' l').
Qed.

Lemma hd_str_split (l : string) :
  exists q qs, str_split ":" l = q :: qs.
Proof.
  destruct (str_split ":" l) as [| q qs] eqn:E.
  - by destruct (str_split_nonempty ":" l).
  - by exists q, qs.
Qed.

Section VideoEndpoint.
Variables (video_dict : pyval) (env_prefix : string) (w : world).
Variables (enable : pyval) (s : string).
Hypothesis Henable :
  prioritized_config video_dict "enable" (env_prefix +:+ "_ENABLE") py_bool true w
  = (Return enable, w).
Hypothesis Huri :
  prioritized_config video_dict "uri" (env_prefix +:+ "_URI") py_str false w
  = (Return (VStr s), w).

Lemma Video_screen :
  s = "screen" ->
  Video___init__ video_dict env_prefix w
  = (Return {| _enable := enable; _uri := VStr "screen";
               _protocol := "screen"; _location := "screen" |}, w).
Proof using Henable Huri.
  intros ->. unfold Video___init__, bind. by rewrite Henable, Huri.
Qed.

Lemma Video_no_colon :
  s <> "screen" ->
  split_first_colon s = None ->
  exists line,
    Video___init__ video_dict env_prefix w = (Exit 1, extend w [ELog ERR line]).
Proof using Henable Huri.
  intros Hs Hnone. unfold Video___init__, bind at 1 2. rewrite Henable, Huri.
  apply String.eqb_neq in Hs. simpl. rewrite Hs.
  unfold try_except_all, bind, split, ret. rewrite (str_split_no_colon _ Hnone).
  simpl. by eexists.
Qed.

(** With a colon in the URI, the protocol is the text before the first
    colon and the location is the second part of the split. *)
Lemma Video_colon (p l : string) :
  split_first_colon s = Some (p, l) ->
  exists q qs,
    str_split ":" l = q :: qs /\
    Video___init__ video_dict env_prefix w
    = (Return {| _enable := enable; _uri := VStr s;
                 _protocol := p; _location := q |}, w).
Proof using Henable Huri.
  intros Hsplit. destruct (hd_str_split l) as (q & qs & Hl).
  exists q, qs. split; [done |].
  assert (Hs : String.eqb s "screen" = false).
  { apply String.eqb_neq. intros ->. discriminate Hsplit. }
  unfold Video___init__, bind at 1 2. rewrite Henable, Huri. simpl. rewrite Hs.
  unfold try_except_all, bind, split, ret.
  by rewrite (str_split_first_colon _ _ _ Hsplit), Hl.
Qed.

(** With exactly one colon, the location is all the text after it. *)
Lemma Video_one_colon (p l : string) :
  split_first_colon s = Some (p, l) ->
  split_first_colon l = None ->
  Video___init__ video_dict env_prefix w
  = (Return {| _enable := enable; _uri := VStr s;
               _protocol := p; _location := l |}, w).
Proof using Henable Huri.
  intros Hsplit Hl. destruct (Video_colon p l Hsplit) as (q & qs & Hq & ->).
  rewrite (str_split_no_colon _ Hl) in Hq. by injection Hq as <- _.
Qed.
End VideoEndpoint.

(** ** What a computation may do: composition *)

Section Quiet.
Variable ok : event -> bool.

Lemma quiet_ret {A} (a : A) : quiet ok (ret a).
Proof. intros w. exists []. simpl. by rewrite app_nil_r. Qed.

Lemma quiet_raise {A} (e : exn) : quiet ok (@raise A e).
Proof. intros w. exists []. simpl. by rewrite app_nil_r. Qed.

Lemma quiet_emit (e : event) : ok e = true -> quiet ok (emit e).
Proof. intros He w. exists [e]. simpl. by rewrite He. Qed.

Lemma quiet_logger (lvl : level) (text : list fpart) :
  ok (ELog lvl text) = true -> quiet ok (logger lvl text).
Proof. apply quiet_emit. Qed.

Lemma quiet_bind {A B} (c : M A) (k : A -> M B) :
  quiet ok c -> (forall a, quiet ok (k a)) -> quiet ok (bind c k).
Proof.
  intros Hc Hk w. destruct (Hc w) as (evs1 & Ht1 & Hok1 & He1 & Hi1 & Hx1).
  unfold bind. destruct (c w) as [[a | e | n] w1]; simpl in *.
  - destruct (Hk a w1) as (evs2 & Ht2 & Hok2 & He2 & Hi2 & Hx2).
    exists (evs1 ++ evs2). rewrite Ht2, Ht1, He2, He1, Hi2, Hi1, forallb_app, Hok1, Hok2.
    by rewrite app_assoc.
  - by exists evs1.
  - by destruct (Hx1 n).
Qed.

Lemma quiet_for_each {A} (xs : list A) (body : A -> M unit) :
  (forall x, quiet ok (body x)) -> quiet ok (for_each xs body).
Proof.
  intros Hbody. induction xs as [| x rest IH]; simpl.
  - apply quiet_ret.
  - apply quiet_bind; [apply Hbody | intros _; apply IH].
Qed.

Lemma quiet_ask {A} (f : world -> A) : quiet ok (ask f).
Proof. intros w. exists []. simpl. by rewrite app_nil_r. Qed.

(** A change of the engine state alone is quiet. *)
Lemma quiet_engine (f : world -> world) :
  (forall w, trace (f w) = trace w) ->
  (forall w, environ (f w) = environ w) ->
  (forall w, instances (f w) = instances w) ->
  quiet ok (engine f).
Proof.
  intros Ht He Hi w. exists []. simpl. by rewrite Ht, He, Hi, app_nil_r.
Qed.

Lemma quiet_attr_of {A} (o : option A) : quiet ok (attr_of o).
Proof. destruct o; [apply quiet_ret | apply quiet_raise]. Qed.

Lemma quiet_np_ndarray (height width : Z) (data : list Byte.byte) :
  quiet ok (np_ndarray height width data).
Proof.
  unfold np_ndarray.
  destruct ((height <? 0) || (width <? 0)); [apply quiet_raise |].
  destruct (Z.of_nat (length data) <? height * width * 3);
    [apply quiet_raise | apply quiet_ret].
Qed.
End Quiet.

(** ** The singleton *)

(** [Config(None)] cannot construct: [None] has no ['input']. *)
Lemma Config_init_None `{Builtins} (w : world) :
  exists evs,
    Config___init__ VNone w = (Raise TypeError, extend w evs) /\
    forallb is_log evs = true.
Proof.
  unfold Config___init__. unfold bind at 1.
  unfold prioritized_config at 1. unfold bind at 1, os_environ_get, ask.
  destruct (environ w !! (ENV_PREFIX +:+ "_LOG_LEVEL")) as [value |]; simpl.
  - unfold bind at 1.
    destruct (negb (String.eqb value "INFO") && negb (String.eqb value "DEBUG")
              && negb (String.eqb value "WARN")); simpl.
    + by eexists.
    + exists []. by rewrite extend_nil.
  - exists []. by rewrite extend_nil.
Qed.

Lemma Config_call_constructed `{Builtins} (arg : pyval) (w : world) (cfg : Config) :
  instances w = Some cfg -> Config___call__ arg w = (Return cfg, w).
Proof.
  intros Hw. unfold Config___call__, Singleton___call__. by rewrite Hw.
Qed.

Lemma forallb_is_log (ok : event -> bool) (evs : list event) :
  (forall lvl text, ok (ELog lvl text) = true) ->
  forallb is_log evs = true -> forallb ok evs = true.
Proof.
  intros Hlog. induction evs as [| e evs IH]; simpl; [done |].
  destruct e; simpl; try done. intros Hevs. by rewrite Hlog, IH.
Qed.

Lemma quiet_Config_call_None `{Builtins} (ok : event -> bool) :
  (forall lvl text, ok (ELog lvl text) = true) ->
  quiet ok (Config___call__ VNone).
Proof.
  intros Hlog w. unfold Config___call__, Singleton___call__.
  destruct (instances w) as [cfg |] eqn:Hw; simpl.
  - exists []. by rewrite app_nil_r.
  - destruct (Config_init_None w) as (evs & -> & Hevs). simpl.
    exists evs. repeat split; try done.
    by apply forallb_is_log.
Qed.

(** ** The callbacks of input.py *)

Ltac quiet_steps :=
  repeat first
    [ apply quiet_ret | apply quiet_raise | apply quiet_ask
    | apply quiet_attr_of | apply quiet_np_ndarray
    | apply quiet_logger; solve [auto]
    | apply quiet_emit; solve [auto]
    | apply quiet_engine; solve [intros; reflexivity]
    | apply quiet_bind; [| intros ?]
    | apply quiet_for_each; intros ? ].

Section Callbacks.
Context `{Builtins}.
Variable ok : event -> bool.
(** Every event but an [EndOfStream] send is allowed. *)
Hypothesis Hok : forall e, is_eos_send e = false -> ok e = true.

Lemma quiet_on_new_sample (sink : AppSink) : quiet ok (on_new_sample sink).
Proof using Hok.
  unfold on_new_sample.
  destruct (pull_sample sink) as [sample |]; [| quiet_steps].
  destruct (get_buffer sample) as [buffer |]; [| quiet_steps].
  destruct (map_success buffer); simpl; [| quiet_steps].
  quiet_steps.
  destruct (_ !! "width") as [width |]; [| quiet_steps].
  destruct (_ !! "height") as [height |]; quiet_steps.
Qed.

Lemma quiet_on_bus_message_other (msg : Message) :
  msg <> EOS -> quiet ok (on_bus_message msg).
Proof using Hok.
  intros Hmsg. destruct msg; [done | ..]; unfold on_bus_message, loop_quit; quiet_steps.
Qed.

Lemma quiet_on_pad_upstream_event (pad : Pad) : quiet ok (on_pad_upstream_event pad).
Proof using Hok.
  unfold on_pad_upstream_event. destruct (get_current_caps pad); quiet_steps.
Qed.

Lemma quiet_run_probes (pad : Pad) (attached : list string) :
  quiet ok (run_probes pad attached).
Proof using Hok.
  induction attached as [| p rest IH]; simpl; [quiet_steps |].
  destruct (String.eqb p (get_name pad)).
  - apply quiet_bind; [apply quiet_on_pad_upstream_event | intros r].
    apply quiet_bind; [apply IH | intros ?; quiet_steps].
  - apply quiet_bind; [apply IH | intros ?; quiet_steps].
Qed.

Lemma quiet_upstream_event (pad : Pad) : quiet ok (upstream_event pad).
Proof using Hok.
  unfold upstream_event. apply quiet_bind; [quiet_steps | intros attached].
  apply quiet_bind; [apply quiet_run_probes | intros ?; quiet_steps].
Qed.

Lemma quiet_pad_added_callback (pad : Pad) : quiet ok (pad_added_callback pad).
Proof using Hok.
  unfold pad_added_callback. apply quiet_bind; [quiet_steps | intros linked].
  destruct linked; simpl; unfold link; quiet_steps.
Qed.

Lemma quiet_handle_caps_change (pad : Pad) : quiet ok (handle_caps_change pad).
Proof. unfold handle_caps_change. quiet_steps. Qed.

(** Only the [EOS] bus event can put an [EndOfStream] message on a
    channel. *)
Lemma quiet_dispatch_other (s : Signal) :
  is_EOS_signal s = false -> quiet ok (dispatch s).
Proof using Hok.
  destruct s as [sink | msg | pad | pad]; simpl; intros Hs.
  - apply quiet_bind; [apply quiet_on_new_sample | intros ?; quiet_steps].
  - apply quiet_bind; [| intros ?; quiet_steps].
    apply quiet_on_bus_message_other. by intros ->.
  - unfold on_pad_added. simpl.
    apply quiet_bind; [apply quiet_pad_added_callback | intros ?].
    apply quiet_bind; [apply quiet_handle_caps_change | intros ?; quiet_steps].
  - apply quiet_upstream_event.
Qed.
End Callbacks.

(** Runs the leading logs and sends of a computation, collecting what they
    append to the trace. *)
Ltac run_events :=
  repeat (unfold bind at 1; rewrite ?logger_extend, ?emit_extend; cbv iota beta);
  unfold ret; rewrite ?extend_extend.

(** ** The end of the stream *)

Lemma notify_workers (workers : list Z) (w : world) :
  for_each workers (fun _ =>
    logger INFO [FLit "Notifying EOS to worker"] ;;;
    emit (EEnsureSend InputPushSocket (serialize EndOfStreamMsg))) w
  = (Return tt,
     extend w (flat_map (fun _ => [ELog INFO [FLit "Notifying EOS to worker"];
                                   EEnsureSend InputPushSocket (serialize EndOfStreamMsg)])
                 workers)).
Proof.
  revert w. induction workers as [| x rest IH]; intros w; simpl.
  - unfold ret. by rewrite extend_nil.
  - unfold bind at 1. unfold bind at 1. rewrite logger_extend, emit_extend, IH.
    by rewrite !extend_extend.
Qed.

Lemma flat_map_const_length {A A' B} (f : list B) (xs : list A) (ys : list A') :
  length xs = length ys ->
  flat_map (fun _ => f) xs = flat_map (fun _ => f) ys.
Proof.
  revert ys. induction xs as [| x xs IH]; intros [| y ys]; simpl; try done.
  intros [= Hlen]. by rewrite (IH ys).
Qed.

(** What handling an [EOS] bus event does once the configuration exists and
    its worker count is an [int]. *)
Lemma on_bus_message_EOS `{Builtins} (w : world) (cfg : Config) (n : Z) :
  instances w = Some cfg ->
  get_n_workers cfg = VInt n ->
  on_bus_message EOS w = (Return true, extend w (eos_events (Z.to_nat n))).
Proof.
  intros Hcfg Hn. unfold on_bus_message.
  unfold bind at 1. rewrite logger_extend.
  unfold bind at 1. rewrite logger_extend.
  unfold bind at 1. rewrite emit_extend.
  unfold bind at 1. rewrite (Config_call_constructed VNone _ cfg) by done.
  rewrite Hn. unfold range. unfold bind at 1. unfold ret at 1.
  unfold bind at 1. rewrite notify_workers. unfold ret.
  rewrite !extend_extend. unfold eos_events. simpl. do 6 f_equal.
  apply flat_map_const_length. by rewrite length_fmap.
Qed.

Lemma sends_eos_events (n : nat) : sends (eos_events n) = eos_block n.
Proof.
  unfold eos_events, eos_block, sends. simpl. f_equal.
  generalize 0%nat. induction n as [| n IH]; intros k; simpl; [done |].
  by rewrite IH.
Qed.

Lemma sends_app (a b : list event) : sends (a ++ b) = sends a ++ sends b.
Proof. apply List.filter_app. Qed.

Lemma eos_sends_app (a b : list event) : eos_sends (a ++ b) = eos_sends a ++ eos_sends b.
Proof. apply List.filter_app. Qed.

Lemma sent_on_repeat_workers (n : nat) :
  sent_on InputPushSocket (eos_block n)
  = repeat (EEnsureSend InputPushSocket (serialize EndOfStreamMsg)) n.
Proof.
  unfold eos_block, sent_on. simpl. induction n as [| n IH]; simpl; [done |].
  by rewrite IH.
Qed.

Lemma sent_on_repeat_output (n : nat) :
  sent_on InputOutputSocket (eos_block n)
  = [ESend InputOutputSocket (serialize EndOfStreamMsg)].
Proof.
  unfold eos_block, sent_on. simpl. f_equal. induction n as [| n IH]; simpl; done.
Qed.

(** No [not EndOfStream] events means no [EndOfStream] sends. *)
Lemma eos_sends_none (evs : list event) :
  forallb (fun e => negb (is_eos_send e)) evs = true -> eos_sends evs = [].
Proof.
  induction evs as [| e evs IH]; simpl; [done |].
  destruct (is_eos_send e); simpl; [done | apply IH].
Qed.

Lemma not_eos_allowed (e : event) : is_eos_send e = false -> negb (is_eos_send e) = true.
Proof. by intros ->. Qed.

(** ** The run of the loop *)

Section Run.
Context `{Builtins}.

Lemma quiet_dispatch (s : Signal) : quiet (fun _ => true) (dispatch s).
Proof.
  destruct (is_EOS_signal s) eqn:Hs.
  - destruct s as [| [] | |]; try discriminate. simpl.
    unfold on_bus_message.
    quiet_steps; try (apply quiet_Config_call_None; done).
    unfold range. destruct (get_n_workers _); quiet_steps.
  - by apply quiet_dispatch_other.
Qed.

Lemma dispatch_instances (s : Signal) (w : world) :
  instances (snd (dispatch s w)) = instances w.
Proof. by destruct (quiet_dispatch s w) as (evs & _ & _ & _ & Hi & _). Qed.

Lemma loop_run_stopped (signals : list Signal) (w : world) :
  running w = false -> loop_run signals w = w.
Proof. intros Hw. destruct signals; simpl; [done | by rewrite Hw]. Qed.

Lemma loop_run_cons (s : Signal) (rest : list Signal) (w : world) :
  running w = true ->
  loop_run (s :: rest) w = loop_run rest (snd (dispatch s w)).
Proof.
  intros Hw. simpl. rewrite Hw.
  destruct (quiet_dispatch s w) as (evs & _ & _ & _ & _ & Hx).
  destruct (dispatch s w) as [[a | e | n] w']; simpl in *; try done.
  by destruct (Hx n).
Qed.

Lemma loop_run_app (a b : list Signal) (w : world) :
  loop_run (a ++ b) w = loop_run b (loop_run a w).
Proof.
  revert w. induction a as [| s a IH]; intros w; [done |].
  destruct (running w) eqn:Hw.
  - change ((s :: a) ++ b) with (s :: (a ++ b)).
    rewrite (loop_run_cons s (a ++ b) w Hw), (loop_run_cons s a w Hw). apply IH.
  - by rewrite (loop_run_stopped (s :: a) w Hw), !(loop_run_stopped _ w Hw).
Qed.

Lemma loop_run_instances (signals : list Signal) (w : world) :
  instances (loop_run signals w) = instances w.
Proof.
  revert w. induction signals as [| s rest IH]; intros w; [done |].
  destruct (running w) eqn:Hw.
  - rewrite (loop_run_cons s rest w Hw). by rewrite IH, dispatch_instances.
  - by rewrite loop_run_stopped.
Qed.

(** Without an [EOS] bus event no [EndOfStream] message is sent. *)
Lemma loop_run_no_EOS (signals : list Signal) (w : world) :
  forallb (fun s => negb (is_EOS_signal s)) signals = true ->
  eos_sends (trace (loop_run signals w)) = eos_sends (trace w).
Proof.
  revert w. induction signals as [| s rest IH]; intros w; [done |].
  simpl forallb. intros [Hs Hrest]%andb_true_iff.
  apply negb_true_iff in Hs.
  destruct (running w) eqn:Hw; [| by rewrite loop_run_stopped].
  rewrite (loop_run_cons s rest w Hw), (IH _ Hrest).
  destruct (quiet_dispatch_other (fun e => negb (is_eos_send e)) not_eos_allowed s Hs w)
    as (evs & -> & Hevs & _).
  by rewrite eos_sends_app, (eos_sends_none _ Hevs), app_nil_r.
Qed.
End Run.

(** ** The claims about the end of the stream *)

Lemma sent_on_sends (ch : channel) (evs : list event) :
  sent_on ch (sends evs) = sent_on ch evs.
Proof.
  induction evs as [| e evs IH]; simpl; [done |].
  destruct e as [| [] | [] | | |], ch; simpl; by rewrite ?IH.
Qed.

(** C1. Handling an EOS bus event sends exactly one serialized EndOfStream
    message on the output component's channel and then one on the worker
    distribution channel per configured worker, n_workers in all; the send
    on the output channel comes before all the sends on the worker
    channel. *)
Theorem EOS_one_to_output_then_one_per_worker `{Builtins}
    (w : world) (cfg : Config) (n : Z) :
  instances w = Some cfg ->
  get_n_workers cfg = VInt n ->
  0 <= n ->
  exists evs,
    on_bus_message EOS w = (Return true, extend w evs) /\
    sends evs
    = ESend InputOutputSocket (serialize EndOfStreamMsg)
        :: repeat (EEnsureSend InputPushSocket (serialize EndOfStreamMsg)) (Z.to_nat n) /\
    length (sent_on InputOutputSocket evs) = 1%nat /\
    Z.of_nat (length (sent_on InputPushSocket evs)) = n.
Proof.
  intros Hcfg Hn Hpos. exists (eos_events (Z.to_nat n)).
  split; [by apply (on_bus_message_EOS w cfg) |].
  split; [apply sends_eos_events |].
  rewrite <- !(sent_on_sends _ (eos_events _)), sends_eos_events.
  rewrite sent_on_repeat_output, sent_on_repeat_workers, repeat_length.
  split; [done | lia].
Qed.

Lemma EOS_one_to_output_then_one_per_worker_witness :
  exists evs,
    @on_bus_message ascii_builtins EOS configured = (Return true, extend configured evs) /\
    sends evs
    = [ESend InputOutputSocket (serialize EndOfStreamMsg);
       EEnsureSend InputPushSocket (serialize EndOfStreamMsg);
       EEnsureSend InputPushSocket (serialize EndOfStreamMsg)] /\
    length (sent_on InputOutputSocket evs) = 1%nat /\
    Z.of_nat (length (sent_on InputPushSocket evs)) = 2.
Proof.
  eapply (@EOS_one_to_output_then_one_per_worker ascii_builtins configured _ 2);
    [reflexivity | reflexivity | lia].
Defined.

(** C3, as the code has it.  Handling an EOS bus event sends the EndOfStream
    message to each of the n_workers workers with the reliable operation
    [ensure_send], and to the output component with the plain [send] of its
    channel. *)
Theorem EOS_ensure_send_to_workers_send_to_output `{Builtins}
    (w : world) (cfg : Config) (n : Z) :
  instances w = Some cfg ->
  get_n_workers cfg = VInt n ->
  exists evs,
    on_bus_message EOS w = (Return true, extend w evs) /\
    sent_on InputPushSocket evs
    = repeat (EEnsureSend InputPushSocket (serialize EndOfStreamMsg)) (Z.to_nat n) /\
    sent_on InputOutputSocket evs = [ESend InputOutputSocket (serialize EndOfStreamMsg)].
Proof.
  intros Hcfg Hn. exists (eos_events (Z.to_nat n)).
  split; [by apply (on_bus_message_EOS w cfg) |].
  rewrite <- !(sent_on_sends _ (eos_events _)), sends_eos_events.
  by rewrite sent_on_repeat_output, sent_on_repeat_workers.
Qed.

Lemma EOS_ensure_send_to_workers_send_to_output_witness :
  exists evs,
    @on_bus_message ascii_builtins EOS configured = (Return true, extend configured evs) /\
    sent_on InputPushSocket evs
    = [EEnsureSend InputPushSocket (serialize EndOfStreamMsg);
       EEnsureSend InputPushSocket (serialize EndOfStreamMsg)] /\
    sent_on InputOutputSocket evs = [ESend InputOutputSocket (serialize EndOfStreamMsg)].
Proof.
  eapply (@EOS_ensure_send_to_workers_send_to_output ascii_builtins configured _ 2);
    reflexivity.
Defined.

(** C3 as stated fails: with two workers configured, the EndOfStream send to
    the output component is not an [ensure_send]. *)
Lemma EOS_output_send_not_reliable :
  @EOS_sends_all_reliable ascii_builtins configured = false.
Proof. reflexivity. Qed.

(** ** The claims about the frame-capture callback *)

(** C8. When the pulled frame unit is unavailable, or its buffer is absent,
    or the buffer cannot be mapped for reading, [on_new_sample] returns the
    error flow status: it neither raises nor exits, it only logs, and it
    sends nothing on the worker distribution channel. *)
Theorem capture_failure_is_flow_error (sink : AppSink) (w : world) :
  capture_fails sink = true ->
  exists evs,
    on_new_sample sink w = (Return FlowERROR, extend w evs) /\
    forallb is_log evs = true /\
    sent_on InputPushSocket evs = [].
Proof.
  unfold capture_fails, on_new_sample.
  destruct (pull_sample sink) as [sample |].
  - destruct (get_buffer sample) as [buffer |].
    + destruct (map_success buffer); [done |]. intros _. simpl negb. cbv iota.
      run_events. by eexists.
    + intros _. run_events. by eexists.
  - intros _. run_events. by eexists.
Qed.

Lemma capture_failure_is_flow_error_witness :
  exists evs,
    on_new_sample unmappable_sink fresh = (Return FlowERROR, extend fresh evs) /\
    forallb is_log evs = true /\
    sent_on InputPushSocket evs = [].
Proof.
  apply (capture_failure_is_flow_error unmappable_sink fresh). reflexivity.
Defined.

(** ** The claims about the configuration *)

(** C6. When the environment variable of a field is set, the resolver
    returns the environment value passed through [convert_to], whatever the
    configuration document is and whether or not it holds the field; the
    process is left exactly as it was. *)
Theorem environment_overrides_document
    (config : pyval) (path env_var_name : string)
    (convert_to : string -> outcome pyval) (required : bool)
    (w : world) (value : string) :
  environ w !! env_var_name = Some value ->
  prioritized_config config path env_var_name convert_to required w
  = (convert_to value, w).
Proof. apply prioritized_config_env. Qed.

Lemma environment_overrides_document_witness :
  environ fresh_env4 !! "PIPELESS_N_WORKERS" = Some "4" /\
  prioritized_config (demo_document (VInt 2)) "n_workers" "PIPELESS_N_WORKERS"
    (@py_int ascii_builtins) true fresh_env4
  = (Return (VInt 4), fresh_env4).
Proof.
  split; [reflexivity |].
  apply (environment_overrides_document (demo_document (VInt 2)) "n_workers"
           "PIPELESS_N_WORKERS" (@py_int ascii_builtins) true fresh_env4 "4").
  reflexivity.
Defined.

(** Nothing in config.py writes the environment. *)
Lemma steady_ret {A} (a : A) : steady (ret a).
Proof. done. Qed.

Lemma steady_raise {A} (e : exn) : steady (@raise A e).
Proof. done. Qed.

Lemma steady_sys_exit {A} (n : Z) : steady (@sys_exit A n).
Proof. done. Qed.

Lemma steady_lift {A} (o : outcome A) : steady (lift o).
Proof. done. Qed.

Lemma steady_logger (lvl : level) (text : list fpart) : steady (logger lvl text).
Proof. done. Qed.

Lemma steady_bind {A B} (c : M A) (k : A -> M B) :
  steady c -> (forall a, steady (k a)) -> steady (bind c k).
Proof.
  intros Hc Hk w. unfold bind. specialize (Hc w).
  destruct (c w) as [[a | e | n] w1]; simpl in *; try done.
  by rewrite Hk.
Qed.

Lemma steady_try_except_all {A} (body handler : M A) :
  steady body -> steady handler -> steady (try_except_all body handler).
Proof.
  intros Hb Hh w. unfold try_except_all. specialize (Hb w).
  destruct (body w) as [[a | e | n] w1]; simpl in *; try done; by rewrite Hh.
Qed.

Lemma steady_prioritized_config (config : pyval) (path env_var_name : string)
    (convert_to : string -> outcome pyval) (required : bool) :
  steady (prioritized_config config path env_var_name convert_to required).
Proof.
  intros w.
  destruct (prioritized_config config path env_var_name convert_to required w)
    as [r w'] eqn:E.
  by destruct (prioritized_config_world _ _ _ _ _ _ _ _ E) as (evs & ->).
Qed.

Lemma steady_getitem (o : pyval) (key : string) : steady (getitem o key).
Proof.
  destruct o as [| | | | d]; try done. simpl. by destruct (d !! key).
Qed.

Lemma steady_run {A} (c : M A) (w w' : world) (r : outcome A) :
  steady c -> c w = (r, w') -> environ w' = environ w.
Proof. intros Hc Hw. specialize (Hc w). by rewrite Hw in Hc. Qed.

Ltac steady_steps :=
  repeat first
    [ apply steady_ret | apply steady_raise | apply steady_sys_exit
    | apply steady_logger | apply steady_prioritized_config | apply steady_getitem
    | apply steady_bind; [| intros ?]
    | apply steady_try_except_all ].

Lemma steady_Video_init (video_dict : pyval) (env_prefix : string) :
  steady (Video___init__ video_dict env_prefix).
Proof.
  unfold Video___init__. steady_steps.
  destruct (py_eq_str _ _); steady_steps.
  - unfold split. destruct a0; steady_steps.
  - unfold list_getitem. destruct (_ !! _); steady_steps.
  - unfold list_getitem. destruct (_ !! _); steady_steps.
Qed.

Lemma steady_Address_init (address_dict : pyval) (env_prefix : string) :
  steady (Address___init__ address_dict env_prefix).
Proof. unfold Address___init__. steady_steps. Qed.

Lemma steady_Input_init (input_dict : pyval) : steady (Input___init__ input_dict).
Proof.
  unfold Input___init__.
  apply steady_bind; [apply steady_getitem | intros video_dict].
  apply steady_bind; [apply steady_Video_init | intros video].
  apply steady_bind; [apply steady_getitem | intros address_dict].
  apply steady_bind; [apply steady_Address_init | intros address].
  apply steady_ret.
Qed.

Lemma steady_Output_init (output_dict : pyval) : steady (Output___init__ output_dict).
Proof.
  unfold Output___init__.
  apply steady_bind; [apply steady_getitem | intros video_dict].
  apply steady_bind; [apply steady_Video_init | intros video].
  apply steady_bind; [apply steady_getitem | intros address_dict].
  apply steady_bind; [apply steady_Address_init | intros address].
  apply steady_ret.
Qed.

(** In a constructed [Config] whose worker count did not come from the
    environment, the worker count is the document's object itself. *)
Lemma Config_n_workers_from_document `{Builtins}
    (d : gmap string pyval) (w w' : world) (cfg : Config) :
  environ w !! "PIPELESS_N_WORKERS" = None ->
  Config___init__ (VDict d) w = (Return cfg, w') ->
  d !! "n_workers" = Some (get_n_workers cfg).
Proof.
  intros Henv. unfold Config___init__.
  intros (log_level & w1 & H1 & Hk)%bind_Return.
  apply bind_Return in Hk as (log_level' & w2 & H2 & Hk).
  apply bind_Return in Hk as (input_dict & w3 & H3 & Hk).
  apply bind_Return in Hk as (input & w4 & H4 & Hk).
  apply bind_Return in Hk as (output_dict & w5 & H5 & Hk).
  apply bind_Return in Hk as (output & w6 & H6 & Hk).
  apply bind_Return in Hk as (n_workers & w7 & H7 & Hk).
  injection Hk as <- _. simpl.
  assert (Hw6 : environ w6 = environ w).
  { rewrite (steady_run _ _ _ _ (steady_Output_init _) H6).
    rewrite (steady_run _ _ _ _ (steady_getitem _ _) H5).
    rewrite (steady_run _ _ _ _ (steady_Input_init _) H4).
    rewrite (steady_run _ _ _ _ (steady_getitem _ _) H3).
    rewrite <- (steady_run _ _ _ _ (steady_prioritized_config _ _ _ _ _) H1).
    refine (steady_run _ _ _ _ _ H2).
    destruct (_ && _); [| apply steady_ret].
    apply steady_bind; [apply steady_logger | intros _; apply steady_ret]. }
  change (ENV_PREFIX +:+ "_N_WORKERS") with "PIPELESS_N_WORKERS" in H7.
  unfold prioritized_config, bind, os_environ_get, ask, try_except, getitem in H7.
  rewrite Hw6, Henv in H7.
  destruct (d !! "n_workers") as [v |]; simpl in H7; [| done].
  by injection H7 as -> _.
Qed.

(** C10. The resolver applies [convert_to] only to values read from the
    environment: with the environment variable unset, a value found at
    [path] in the document is returned as it is, whatever [convert_to] is.
    So the worker count of a constructed [Config] is the document's object,
    of the document's type, when it comes from the document. *)
Theorem document_value_is_not_converted `{Builtins}
    (d : gmap string pyval) (path env_var_name : string)
    (convert_to : string -> outcome pyval) (required : bool)
    (w : world) (v : pyval) :
  environ w !! env_var_name = None ->
  d !! path = Some v ->
  prioritized_config (VDict d) path env_var_name convert_to required w = (Return v, w) /\
  (env_var_name = "PIPELESS_N_WORKERS" -> path = "n_workers" ->
   forall cfg w', Config___init__ (VDict d) w = (Return cfg, w') ->
     get_n_workers cfg = v).
Proof.
  intros Henv Hdoc. split; [by apply (prioritized_config_document _ _ _ _ _ _ d) |].
  intros -> -> cfg w' Hinit.
  pose proof (Config_n_workers_from_document d w w' cfg Henv Hinit) as Hn.
  rewrite Hdoc in Hn. by injection Hn.
Qed.

Lemma document_value_is_not_converted_witness :
  prioritized_config (demo_document (VStr "3")) "n_workers" "PIPELESS_N_WORKERS"
    (@py_int ascii_builtins) true fresh
  = (Return (VStr "3"), fresh) /\
  forall cfg w',
    @Config___init__ ascii_builtins (demo_document (VStr "3")) fresh = (Return cfg, w') ->
    get_n_workers cfg = VStr "3".
Proof.
  destruct (@document_value_is_not_converted ascii_builtins (demo_dict (VStr "3"))
              "n_workers" "PIPELESS_N_WORKERS" (@py_int ascii_builtins) true fresh
              (VStr "3") eq_refl eq_refl) as [Hresolved Hconfig].
  split; [exact Hresolved | exact (Hconfig eq_refl eq_refl)].
Defined.

(** A worker count written as a string in the document stays a string. *)
Example Config_keeps_str_worker_count :
  fst (@Config___init__ ascii_builtins (demo_document (VStr "3")) fresh)
  = Return (demo_config (VStr "3")).
Proof. reflexivity. Qed.

(** C4, at a URI with a second colon.  The constructor splits at every
    colon and keeps the first two parts: for "rtsp://cam:8554/live" the
    location is "//cam", not the whole remainder "//cam:8554/live" after the
    first colon. *)
Theorem Video_location_ends_at_second_colon :
  fst (Video___init__ (demo_video "rtsp://cam:8554/live") "PIPELESS_INPUT_VIDEO" fresh)
  = Return {| _enable := VBool true; _uri := VStr "rtsp://cam:8554/live";
              _protocol := "rtsp"; _location := "//cam" |} /\
  split_first_colon "rtsp://cam:8554/live" = Some ("rtsp", "//cam:8554/live").
Proof. split; reflexivity. Qed.

(** The documented example and the two other cases of C4 at concrete
    inputs. *)
Example Video_file_uri :
  fst (Video___init__ (demo_video "file:///a/b") "PIPELESS_INPUT_VIDEO" fresh)
  = Return {| _enable := VBool true; _uri := VStr "file:///a/b";
              _protocol := "file"; _location := "///a/b" |}.
Proof. reflexivity. Qed.

Example Video_screen_uri :
  fst (Video___init__ (demo_video "screen") "PIPELESS_OUTPUT_VIDEO" fresh)
  = Return {| _enable := VBool true; _uri := VStr "screen";
              _protocol := "screen"; _location := "screen" |}.
Proof. reflexivity. Qed.

Example Video_uri_without_colon :
  fst (Video___init__ (demo_video "movie.mp4") "PIPELESS_INPUT_VIDEO" fresh) = Exit 1.
Proof. reflexivity. Qed.

(** C9. Once [Config] has been constructed, every later construction, with
    any argument and whatever the environment has become, returns the
    instance of the first construction, with the same log level, input,
    output and worker count, and leaves the process as it is; no callback
    of the run changes the instance. *)
Theorem Config_singleton_idempotent `{Builtins}
    (first : pyval) (w w1 : world) (cfg : Config) :
  Config___call__ first w = (Return cfg, w1) ->
  instances w1 = Some cfg /\
  forall (signals : list Signal) (env : gmap string string) (arg : pyval),
    let w2 := set_environ env (loop_run signals w1) in
    instances w2 = Some cfg /\
    Config___call__ arg w2 = (Return cfg, w2).
Proof.
  intros Hfirst.
  assert (Hw1 : instances w1 = Some cfg).
  { unfold Config___call__, Singleton___call__ in Hfirst.
    destruct (instances w) as [c |] eqn:Hw.
    - by injection Hfirst as -> <-.
    - destruct (Config___init__ first w) as [[c | e | n] w0]; try done.
      by injection Hfirst as -> <-. }
  split; [done |]. intros signals env arg w2.
  assert (Hw2 : instances w2 = Some cfg).
  { unfold w2. simpl. by rewrite loop_run_instances. }
  split; [done | by apply Config_call_constructed].
Qed.

Lemma Config_singleton_idempotent_witness :
  instances configured = Some (demo_config (VInt 2)) /\
  forall (signals : list Signal) (env : gmap string string) (arg : pyval),
    let w2 := set_environ env (@loop_run ascii_builtins signals configured) in
    instances w2 = Some (demo_config (VInt 2)) /\
    @Config___call__ ascii_builtins arg w2 = (Return (demo_config (VInt 2)), w2).
Proof.
  apply (@Config_singleton_idempotent ascii_builtins (demo_document (VInt 2)) fresh).
  reflexivity.
Defined.

(** ** The claims about the order of messages *)

Lemma effects_unchanged {A} (c : M A) (w : world) (r : outcome A) :
  c w = (r, w) -> effects c w = [].
Proof. intros Hc. unfold effects. rewrite Hc. apply drop_all. Qed.

Lemma effects_extend {A} (c : M A) (w : world) (r : outcome A) (evs : list event)
    (f : world -> world) :
  (forall w', trace (f w') = trace w') ->
  c w = (r, f (extend w evs)) -> effects c w = evs.
Proof.
  intros Hf Hc. unfold effects. rewrite Hc. simpl. rewrite Hf. simpl.
  apply drop_app_length.
Qed.

(** C2, as the code has it.  The handlers keep no end-of-stream state.
    EndOfStream messages are produced only by the handling of an EOS bus
    event, as one message sent once on the output channel and n_workers
    times on the worker channel; they are the last messages on both channels
    when the EOS bus event is the last signal the engine delivers. *)
Theorem EndOfStream_last_when_EOS_is_last `{Builtins}
    (w : world) (before : list Signal) (cfg : Config) (n : Z) :
  instances w = Some cfg ->
  get_n_workers cfg = VInt n ->
  forallb (fun s => negb (is_EOS_signal s)) before = true ->
  running (loop_run before w) = true ->
  eos_sends (trace (loop_run before w)) = eos_sends (trace w) /\
  exists evs,
    loop_run (before ++ [BusMessage EOS]) w = extend (loop_run before w) evs /\
    sends evs = eos_block (Z.to_nat n).
Proof.
  intros Hcfg Hn Hbefore Hrun. split; [by apply loop_run_no_EOS |].
  exists (eos_events (Z.to_nat n)). split; [| apply sends_eos_events].
  rewrite loop_run_app, (loop_run_cons _ _ _ Hrun).
  cbn [loop_run dispatch]. unfold bind.
  rewrite (on_bus_message_EOS _ cfg n); [done | | done].
  by rewrite loop_run_instances.
Qed.

Lemma EndOfStream_last_when_EOS_is_last_witness :
  let before := [PadAdded video_pad; UpstreamEvent video_pad_negotiated;
                 NewSample demo_sink; BusMessage (TAG "title=demo")] in
  eos_sends (trace (@loop_run ascii_builtins before configured))
  = eos_sends (trace configured) /\
  exists evs,
    @loop_run ascii_builtins (before ++ [BusMessage EOS]) configured
    = extend (@loop_run ascii_builtins before configured) evs /\
    sends evs = eos_block 2.
Proof.
  intros before.
  apply (@EndOfStream_last_when_EOS_is_last ascii_builtins configured before
           (demo_config (VInt 2)) 2); reflexivity.
Defined.

(** C2 as stated fails: a frame delivered after the EOS bus event is sent to
    the workers, and a tag delivered after it is sent to the output
    component. *)
Lemma messages_follow_EndOfStream :
  @silent_after_EOS ascii_builtins configured [NewSample demo_sink] = false /\
  @silent_after_EOS ascii_builtins configured [BusMessage (TAG "title=demo")] = false.
Proof. split; reflexivity. Qed.

(** ** The claims about connection points *)

Lemma set_probes_same (w : world) : set_probes (probes w) w = w.
Proof. by destruct w. Qed.

Section Probe.
Variable pad : Pad.
Variable others : list string.
Hypothesis Hothers : get_name pad ∉ others.

(** Probes of other pads are not run. *)
Lemma run_probes_absent (w : world) : run_probes pad others w = (Return others, w).
Proof using Hothers.
  revert Hothers. induction others as [| p rest IH]; intros Hout; simpl; [done |].
  apply not_elem_of_cons in Hout as [Hne Hrest].
  assert (Hp : String.eqb p (get_name pad) = false) by by apply String.eqb_neq.
  rewrite Hp. unfold bind. by rewrite (IH Hrest).
Qed.

Lemma run_probes_waiting (w : world) :
  get_current_caps pad = None ->
  run_probes pad (others ++ [get_name pad]) w
  = (Return (others ++ [get_name pad]), w).
Proof using Hothers.
  intros Hcaps. revert Hothers.
  induction others as [| p rest IH]; intros Hout; simpl.
  - rewrite String.eqb_refl. unfold bind, on_pad_upstream_event. by rewrite Hcaps.
  - apply not_elem_of_cons in Hout as [Hne Hrest].
    assert (Hp : String.eqb p (get_name pad) = false) by by apply String.eqb_neq.
    rewrite Hp. unfold bind. by rewrite (IH Hrest).
Qed.

Lemma run_probes_negotiated (w : world) (caps : Caps) :
  get_current_caps pad = Some caps ->
  exists line,
    run_probes pad (others ++ [get_name pad]) w
    = (Return others,
       extend w [ELog DEBUG line;
                 ESend InputOutputSocket (serialize (StreamCapsMsg (to_string caps)))]).
Proof using Hothers.
  intros Hcaps. revert Hothers.
  induction others as [| p rest IH]; intros Hout; simpl.
  - rewrite String.eqb_refl. unfold on_pad_upstream_event. rewrite Hcaps.
    run_events. by eexists.
  - apply not_elem_of_cons in Hout as [Hne Hrest].
    assert (Hp : String.eqb p (get_name pad) = false) by by apply String.eqb_neq.
    rewrite Hp. destruct (IH Hrest) as (line & Hrun).
    exists line. unfold bind. by rewrite Hrun.
Qed.
End Probe.

Section ConnectionPoint.
(** The probes of the other pads, and the name of this connection
    point. *)
Variables (others : list string) (name : string).
Hypothesis Hothers : name ∉ others.

Lemma upstream_event_detached (p : Pad) (w : world) :
  get_name p = name ->
  probes w = others ->
  upstream_event p w = (Return tt, w).
Proof using Hothers.
  intros Hp Hw. unfold upstream_event, bind, ask, engine. rewrite Hw.
  rewrite run_probes_absent by by rewrite Hp.
  by rewrite <- Hw, set_probes_same.
Qed.

Lemma upstream_event_waiting (p : Pad) (w : world) :
  get_name p = name ->
  get_current_caps p = None ->
  probes w = others ++ [name] ->
  upstream_event p w = (Return tt, w).
Proof using Hothers.
  intros Hp Hcaps Hw. unfold upstream_event, bind, ask, engine. rewrite Hw, <- Hp.
  rewrite run_probes_waiting by (by rewrite ?Hp).
  by rewrite Hp, <- Hw, set_probes_same.
Qed.

Lemma upstream_event_negotiated (p : Pad) (caps : Caps) (w : world) :
  get_name p = name ->
  get_current_caps p = Some caps ->
  probes w = others ++ [name] ->
  exists line,
    upstream_event p w
    = (Return tt,
       set_probes others
         (extend w [ELog DEBUG line;
                    ESend InputOutputSocket (serialize (StreamCapsMsg (to_string caps)))])).
Proof using Hothers.
  intros Hp Hcaps Hw.
  destruct (run_probes_negotiated p others ltac:(by rewrite Hp) w caps Hcaps)
    as (line & Hrun).
  exists line. unfold upstream_event, bind, ask, engine.
  by rewrite Hw, <- Hp, Hrun.
Qed.

(** Once the probe is detached, upstream events of the pad do nothing. *)
Lemma upstream_events_detached (history : list Pad) (w : world) :
  Forall (fun p => get_name p = name) history ->
  probes w = others ->
  upstream_events history w = (Return tt, w).
Proof using Hothers.
  intros Hnames Hw.
  induction Hnames as [| p rest Hp _ IH]; [done |].
  unfold upstream_events in *. simpl. unfold bind.
  by rewrite (upstream_event_detached p w Hp Hw).
Qed.

(** Before the format is known, upstream events do nothing and the probe
    stays. *)
Lemma upstream_events_waiting (history : list Pad) (w : world) :
  Forall (fun p => get_name p = name) history ->
  Forall (fun p => get_current_caps p = None) history ->
  probes w = others ++ [name] ->
  upstream_events history w = (Return tt, w).
Proof using Hothers.
  intros Hnames Hcaps Hw.
  induction Hnames as [| p rest Hp _ IH]; [done |].
  apply Forall_cons in Hcaps as [Hcaps Hrest].
  unfold upstream_events in *. simpl. unfold bind.
  rewrite (upstream_event_waiting p w Hp Hcaps Hw). by apply IH.
Qed.

(** The first event that finds the format known sends [Caps] and detaches
    the probe; nothing happens after it. *)
Lemma upstream_events_negotiated
    (waiting later : list Pad) (p : Pad) (caps : Caps) (w : world) :
  Forall (fun p => get_name p = name) (waiting ++ p :: later) ->
  Forall (fun p => get_current_caps p = None) waiting ->
  get_current_caps p = Some caps ->
  probes w = others ++ [name] ->
  exists line,
    upstream_events (waiting ++ p :: later) w
    = (Return tt,
       set_probes others
         (extend w [ELog DEBUG line;
                    ESend InputOutputSocket (serialize (StreamCapsMsg (to_string caps)))])).
Proof using Hothers.
  intros Hnames Hwaiting Hcaps Hw.
  induction waiting as [| q rest IH].
  - apply Forall_cons in Hnames as [Hp Hlater].
    destruct (upstream_event_negotiated p caps w Hp Hcaps Hw) as (line & Hrun).
    exists line. unfold upstream_events. simpl. unfold bind. rewrite Hrun.
    by apply upstream_events_detached.
  - apply Forall_cons in Hnames as [Hq Hnames].
    apply Forall_cons in Hwaiting as [Hqcaps Hwaiting].
    destruct (IH Hnames Hwaiting) as (line & Hrun).
    exists line. unfold upstream_events in *. simpl. unfold bind.
    by rewrite (upstream_event_waiting q w Hq Hqcaps Hw).
Qed.

(** Every history either never finds the format known, or has a first
    event that does. *)
Lemma first_negotiated (history : list Pad) :
  Forall (fun p => get_current_caps p = None) history \/
  exists waiting p later caps,
    history = waiting ++ p :: later /\
    Forall (fun p => get_current_caps p = None) waiting /\
    get_current_caps p = Some caps.
Proof.
  induction history as [| q rest IH]; [by left |].
  destruct (get_current_caps q) as [caps |] eqn:Hq.
  - right. by exists [], q, rest, caps.
  - destruct IH as [Hall | (waiting & p & later & caps & -> & Hwaiting & Hp)].
    + left. by constructor.
    + right. exists (q :: waiting), p, later, caps. repeat split; [| done].
      by constructor.
Qed.
End ConnectionPoint.

Lemma on_pad_upstream_event_waiting (p : Pad) (w : world) :
  get_current_caps p = None -> on_pad_upstream_event p w = (Return ProbeOK, w).
Proof. intros Hp. unfold on_pad_upstream_event. by rewrite Hp. Qed.

Lemma on_pad_upstream_event_negotiated (p : Pad) (caps : Caps) (w : world) :
  get_current_caps p = Some caps ->
  exists line,
    on_pad_upstream_event p w
    = (Return ProbeREMOVE,
       extend w [ELog DEBUG line;
                 ESend InputOutputSocket (serialize (StreamCapsMsg (to_string caps)))]).
Proof.
  intros Hp. unfold on_pad_upstream_event. rewrite Hp. run_events. by eexists.
Qed.

(** C5. For a newly created connection point, the probe does nothing and
    stays in place at every upstream event that finds no negotiated format;
    the first event that finds the format known sends one Caps message to
    the output component and detaches the probe, so that no later event of
    that connection point sends anything: the Caps message is emitted at
    most once, and only with the format known. *)
Theorem Caps_sent_once_when_negotiated (w0 : world) (pad : Pad) (history : list Pad) :
  get_name pad ∉ probes w0 ->
  Forall (fun p => get_name p = get_name pad) history ->
  let w := snd (handle_caps_change pad w0) in
  (forall p w', get_current_caps p = None ->
     on_pad_upstream_event p w' = (Return ProbeOK, w')) /\
  (forall p w' caps, get_current_caps p = Some caps ->
     exists line,
       on_pad_upstream_event p w'
       = (Return ProbeREMOVE,
          extend w' [ELog DEBUG line;
                     ESend InputOutputSocket (serialize (StreamCapsMsg (to_string caps)))])) /\
  (Forall (fun p => get_current_caps p = None) history ->
     upstream_events history w = (Return tt, w)) /\
  (forall waiting p later caps,
     history = waiting ++ p :: later ->
     Forall (fun p => get_current_caps p = None) waiting ->
     get_current_caps p = Some caps ->
     exists line,
       upstream_events history w
       = (Return tt,
          set_probes (probes w0)
            (extend w [ELog DEBUG line;
                       ESend InputOutputSocket
                         (serialize (StreamCapsMsg (to_string caps)))]))) /\
  (length (List.filter is_caps_send (effects (upstream_events history) w)) <= 1)%nat.
Proof.
  intros Hfresh Hnames w.
  assert (Hw : probes w = probes w0 ++ [get_name pad]) by done.
  split; [apply on_pad_upstream_event_waiting |].
  split; [intros p w' caps; apply on_pad_upstream_event_negotiated |].
  split; [intros Hnone; by apply (upstream_events_waiting (probes w0) (get_name pad)) |].
  split.
  - intros waiting p later caps -> Hwaiting Hp.
    by apply (upstream_events_negotiated (probes w0) (get_name pad)).
  - destruct (first_negotiated history)
      as [Hnone | (waiting & p & later & caps & -> & Hwaiting & Hp)].
    + rewrite (effects_unchanged _ _ (Return tt)); [simpl; lia |].
      by apply (upstream_events_waiting (probes w0) (get_name pad)).
    + destruct (upstream_events_negotiated (probes w0) (get_name pad) Hfresh
                  waiting later p caps w Hnames Hwaiting Hp Hw) as (line & Hrun).
      by rewrite (effects_extend _ _ _ _ (set_probes (probes w0)) (fun _ => eq_refl) Hrun).
Qed.

Lemma Caps_sent_once_when_negotiated_witness :
  let history := [video_pad; video_pad_negotiated; video_pad_negotiated] in
  let w := snd (handle_caps_change video_pad fresh) in
  List.filter is_caps_send (effects (upstream_events history) w)
  = [ESend InputOutputSocket (serialize (StreamCapsMsg (to_string demo_caps)))] /\
  (length (List.filter is_caps_send (effects (upstream_events history) w)) <= 1)%nat.
Proof.
  intros history w. split; [reflexivity |].
  apply (Caps_sent_once_when_negotiated fresh video_pad history).
  - apply not_elem_of_nil.
  - repeat constructor.
Defined.

(** ** The claims about linking *)

Lemma pad_added_callback_linked (pad : Pad) (w : world) :
  is_linked w = true ->
  pad_added_callback pad w
  = (Return tt,
     extend w [ELog WARN
                 [FLit "Video converter pad is already linked. Skipping uridecoder link"]]).
Proof.
  intros Hw. unfold pad_added_callback. unfold bind at 1. unfold ask. by rewrite Hw.
Qed.

Lemma pad_added_callback_unlinked (pad : Pad) (w : world) :
  is_linked w = false ->
  pad_added_callback pad w
  = (Return tt,
     set_is_linked (link_accepted pad)
       (extend w [ELog INFO [FLit "Linking uridecoderbin pad to videoconvert pad"];
                  ELink (get_name pad)])).
Proof.
  intros Hw. unfold pad_added_callback. unfold bind at 1. unfold ask. rewrite Hw.
  unfold link, bind, logger, emit, engine, set_is_linked, extend. simpl.
  by rewrite <- app_assoc.
Qed.

(** With the sink pad linked, every pad is skipped with a warning. *)
Lemma pads_added_linked (pads : list Pad) (w : world) :
  is_linked w = true ->
  exists evs,
    pads_added pads w = (Return tt, extend w evs) /\
    link_attempts evs = [] /\
    length (List.filter is_warning evs) = length pads.
Proof.
  revert w. induction pads as [| p rest IH]; intros w Hw.
  - exists []. by rewrite extend_nil.
  - destruct (IH (extend w [ELog WARN
        [FLit "Video converter pad is already linked. Skipping uridecoder link"]]) Hw)
      as (evs & Hrun & Hlinks & Hwarn).
    eexists (_ :: evs). unfold pads_added in *. simpl. unfold bind.
    rewrite (pad_added_callback_linked p w Hw), Hrun, extend_extend.
    split; [done |]. unfold link_attempts in *. simpl. by rewrite Hlinks, Hwarn.
Qed.

Lemma pads_added_unlinked (pads : list Pad) (w : world) :
  is_linked w = false ->
  exists evs,
    pads_added pads w
    = (Return tt, set_is_linked (existsb link_accepted pads) (extend w evs)) /\
    link_attempts evs = (fun p => ELink (get_name p)) <$> until_accepted pads /\
    length (List.filter is_warning evs)
    = (length pads - length (until_accepted pads))%nat.
Proof.
  revert w. induction pads as [| p rest IH]; intros w Hw.
  - exists []. rewrite extend_nil. split; [| done].
    unfold pads_added. simpl. unfold ret. f_equal. destruct w. simpl in Hw. by subst.
  - unfold pads_added in *. simpl. unfold bind.
    rewrite (pad_added_callback_unlinked p w Hw).
    set (first := [ELog INFO [FLit "Linking uridecoderbin pad to videoconvert pad"];
                   ELink (get_name p)]).
    destruct (link_accepted p) eqn:Hp.
    + destruct (pads_added_linked rest (set_is_linked true (extend w first)) eq_refl)
        as (evs & Hrun & Hlinks & Hwarn).
      exists (first ++ evs). unfold pads_added in Hrun. rewrite Hrun. simpl.
      split; [unfold extend, set_is_linked; simpl; by rewrite <- app_assoc |].
      unfold link_attempts in *. simpl. rewrite Hlinks, Hwarn. split; [done | lia].
    + destruct (IH (set_is_linked false (extend w first)) eq_refl)
        as (evs & Hrun & Hlinks & Hwarn).
      exists (first ++ evs). rewrite Hrun. simpl.
      split; [unfold extend, set_is_linked; simpl; by rewrite <- app_assoc |].
      unfold link_attempts in *. simpl. rewrite Hlinks, Hwarn. split; [done |].
      assert (length (until_accepted rest) <= length rest)%nat; [| lia].
      clear. induction rest as [| q rest IH]; simpl; [lia |].
      destruct (link_accepted q); simpl; lia.
Qed.

(** C7, as the code has it.  The callback attempts a link exactly when the
    normalization input is not yet linked.  Over a sequence of connection
    points the attempts therefore go to the points up to and including the
    first one whose link the engine accepts; every later point is skipped
    with a warning and no link attempt, so at most one link is made. *)
Theorem link_attempts_until_first_accepted (w : world) (pads : list Pad) :
  is_linked w = false ->
  (forall pad w',
     link_attempts (effects (pad_added_callback pad) w')
     = if is_linked w' then [] else [ELink (get_name pad)]) /\
  exists evs,
    pads_added pads w
    = (Return tt, set_is_linked (existsb link_accepted pads) (extend w evs)) /\
    link_attempts evs = (fun p => ELink (get_name p)) <$> until_accepted pads /\
    length (List.filter is_warning evs)
    = (length pads - length (until_accepted pads))%nat.
Proof.
  intros Hw. split; [| by apply pads_added_unlinked].
  intros pad w'. destruct (is_linked w') eqn:Hw'.
  - by rewrite (effects_extend _ _ _ _ (fun x => x) (fun _ => eq_refl)
                  (pad_added_callback_linked pad w' Hw')).
  - by rewrite (effects_extend _ _ _ _ (set_is_linked (link_accepted pad))
                  (fun _ => eq_refl) (pad_added_callback_unlinked pad w' Hw')).
Qed.

Lemma link_attempts_until_first_accepted_witness :
  exists evs,
    pads_added [audio_pad; video_pad; audio_pad] fresh
    = (Return tt, set_is_linked true (extend fresh evs)) /\
    link_attempts evs = [ELink "audio_0"; ELink "video_0"] /\
    length (List.filter is_warning evs) = 1%nat.
Proof.
  apply (link_attempts_until_first_accepted fresh [audio_pad; video_pad; audio_pad]).
  reflexivity.
Defined.

(** C7 as stated fails: when the engine refuses the link of the first
    connection point, here an audio pad, a second attempt is made for the
    next one, and it is the second point that is linked. *)
Lemma second_link_attempt_after_refusal :
  single_link_attempt fresh [audio_pad; video_pad] = false /\
  link_attempts (effects (pads_added [audio_pad; video_pad]) fresh)
  = [ELink "audio_0"; ELink "video_0"].
Proof. split; reflexivity. Qed.

(** * Further properties of config.py *)

(** ** The resolver on a missing or unusable document *)

(** How a returning resolution came about; the process is as before. *)
Lemma prioritized_config_Return (config : pyval) (path env_var_name : string)
    (convert_to : string -> outcome pyval) (required : bool)
    (w w' : world) (v : pyval) :
  prioritized_config config path env_var_name convert_to required w = (Return v, w') ->
  w' = w /\
  ((exists s, environ w !! env_var_name = Some s /\ convert_to s = Return v) \/
   (environ w !! env_var_name = None /\
    exists d, config = VDict d /\
      (d !! path = Some v \/ (d !! path = None /\ required = false /\ v = VNone)))).
Proof.
  unfold prioritized_config, bind, os_environ_get, ask, try_except, getitem, lift.
  destruct (environ w !! env_var_name) as [s |] eqn:Henv.
  - destruct (convert_to s) eqn:Hs; intros [= <- <-]. split; [done |]. left. by exists s.
  - destruct config as [| | | | d]; try done.
    destruct (d !! path) as [x |] eqn:Hd; simpl.
    + intros [= <- <-]. split; [done |]. right. split; [done |]. exists d. by auto.
    + destruct required; simpl; [done |].
      intros [= <- <-]. split; [done |]. right. split; [done |]. exists d. by auto.
Qed.

Lemma missing_field_exits_or_None_aux
    (d : gmap string pyval) (path env_var_name : string)
    (convert_to : string -> outcome pyval) (w : world) :
  environ w !! env_var_name = None ->
  d !! path = None ->
  prioritized_config (VDict d) path env_var_name convert_to true w
  = (Exit 1, extend w [ELog ERR [FLit env_var_name; FLit " env var or "; FLit path;
                                 FLit " in config file option is required!"]]) /\
  prioritized_config (VDict d) path env_var_name convert_to false w = (Return VNone, w).
Proof.
  intros Henv Hd.
  unfold prioritized_config, bind, os_environ_get, ask, try_except, getitem.
  by rewrite Henv, Hd.
Qed.

(** X1. A field found neither in the environment nor in the document: when
    required, the resolver logs one error naming the variable and the path
    and exits with status 1; when optional, it returns [None] and does
    nothing else. *)
Theorem missing_field_exits_or_None
    (d : gmap string pyval) (path env_var_name : string)
    (convert_to : string -> outcome pyval) (w : world) :
  environ w !! env_var_name = None ->
  d !! path = None ->
  prioritized_config (VDict d) path env_var_name convert_to true w
  = (Exit 1, extend w [ELog ERR [FLit env_var_name; FLit " env var or "; FLit path;
                                 FLit " in config file option is required!"]]) /\
  prioritized_config (VDict d) path env_var_name convert_to false w = (Return VNone, w).
Proof. apply missing_field_exits_or_None_aux. Qed.

Lemma missing_field_exits_or_None_witness :
  prioritized_config demo_address "user" "PIPELESS_INPUT_ADDRESS_USER" py_str true fresh
  = (Exit 1, extend fresh [ELog ERR [FLit "PIPELESS_INPUT_ADDRESS_USER";
                                     FLit " env var or "; FLit "user";
                                     FLit " in config file option is required!"]]) /\
  prioritized_config demo_address "user" "PIPELESS_INPUT_ADDRESS_USER" py_str false fresh
  = (Return VNone, fresh).
Proof.
  apply (missing_field_exits_or_None
           (list_to_map [("host", VStr "localhost"); ("port", VInt 1234)])
           "user" "PIPELESS_INPUT_ADDRESS_USER" py_str fresh); reflexivity.
Defined.

(** X2. A document that is not a [dict] (such as [None]), with the
    environment variable unset: the lookup raises [TypeError], which the
    resolver does not catch, whether or not the field is required; nothing
    is logged and the process does not exit. *)
Theorem non_dict_document_raises_TypeError
    (config : pyval) (path env_var_name : string)
    (convert_to : string -> outcome pyval) (required : bool) (w : world) :
  environ w !! env_var_name = None ->
  is_dict config = false ->
  prioritized_config config path env_var_name convert_to required w
  = (Raise TypeError, w).
Proof.
  intros Henv Hconfig.
  unfold prioritized_config, bind, os_environ_get, ask, try_except, getitem.
  rewrite Henv. by destruct config.
Qed.

Lemma non_dict_document_raises_TypeError_witness :
  prioritized_config VNone "log_level" "PIPELESS_LOG_LEVEL" py_str true fresh
  = (Raise TypeError, fresh).
Proof.
  apply (non_dict_document_raises_TypeError VNone "log_level" "PIPELESS_LOG_LEVEL"
           py_str true fresh); reflexivity.
Defined.

(** ** Addresses *)

Lemma Address_init_Return (address_dict : pyval) (env_prefix : string)
    (w w' : world) (a : Address) :
  Address___init__ address_dict env_prefix w = (Return a, w') -> w' = w.
Proof.
  unfold Address___init__.
  intros (host & w1 & H1 & Hk)%bind_Return.
  apply bind_Return in Hk as (port & w2 & H2 & Hk).
  apply prioritized_config_Return in H1 as [-> _].
  apply prioritized_config_Return in H2 as [-> _].
  by injection Hk as _ <-.
Qed.



(** X4. The constructor accepts any port string from the environment; it
    is [get_port] that converts it, so a port that is not a number surfaces
    there as a [ValueError], and a numeric one comes back as that number. *)
Theorem Address_port_checked_by_get_port `{Builtins}
    (address_dict : pyval) (env_prefix : string) (w : world) (host : pyval) (s : string) :
  prioritized_config address_dict "host" (env_prefix +:+ "_HOST") py_str true w
  = (Return host, w) ->
  environ w !! (env_prefix +:+ "_PORT") = Some s ->
  exists a,
    Address___init__ address_dict env_prefix w = (Return a, w) /\
    get_host a = host /\
    get_port a = match int_of_str s with
                 | Some n => Return n
                 | None => Raise ValueError
                 end.
Proof.
  intros Hhost Hport. exists {| _host := host; _port := VStr s |}.
  split; [| done]. unfold Address___init__. unfold bind at 1. rewrite Hhost.
  unfold bind. by rewrite (prioritized_config_env _ _ _ py_str true w s Hport).
Qed.

Lemma Address_port_checked_by_get_port_witness :
  let w := set_environ {[ "PIPELESS_INPUT_ADDRESS_PORT" := "http" ]} fresh in
  exists a,
    Address___init__ demo_address "PIPELESS_INPUT_ADDRESS" w = (Return a, w) /\
    get_host a = VStr "localhost" /\
    @get_port ascii_builtins a = Raise ValueError.
Proof.
  intros w.
  apply (@Address_port_checked_by_get_port ascii_builtins demo_address
           "PIPELESS_INPUT_ADDRESS" w (VStr "localhost") "http"); reflexivity.
Defined.

(** ** Video endpoints *)

Lemma try_except_all_Return {A} (body handler : M A) (w w' : world) (a : A) :
  try_except_all body handler w = (Return a, w') ->
  body w = (Return a, w') \/
  exists w1, snd (body w) = w1 /\ handler w1 = (Return a, w').
Proof.
  unfold try_except_all. destruct (body w) as [[x | e | n] w1]; intros Hw.
  - left. by injection Hw as -> ->.
  - right. by exists w1.
  - right. by exists w1.
Qed.

(** The first part of a split holds no colon, and the string is that part
    alone or that part, a colon, and a string that splits into the rest. *)
Lemma str_split_cons (s p : string) (ps : list string) :
  str_split ":" s = p :: ps ->
  has_colon p = false /\
  match ps with
  | [] => s = p
  | _ :: _ => exists t, s = p +:+ ":" +:+ t /\ str_split ":" t = ps
  end.
Proof.
  revert p ps. induction s as [| c rest IH]; intros p ps; simpl.
  - by intros [= <- <-].
  - destruct (Ascii.eqb_spec c ":") as [-> | Hc].
    + intros [= <- <-]. split; [done |].
      destruct (hd_str_split rest) as (q & qs & Hq). rewrite Hq.
      exists rest. by rewrite Hq.
    + destruct (str_split ":" rest) as [| q qs] eqn:Hrest;
        [by destruct (str_split_nonempty ":" rest) |].
      intros [= <- <-]. destruct (IH q qs eq_refl) as [Hq Hqs]. split.
      * simpl. rewrite Hq. by apply Ascii.eqb_neq in Hc as ->.
      * destruct qs as [| q' qs']; [by rewrite Hqs |].
        destruct Hqs as (t & -> & Ht). by exists t.
Qed.

Lemma append_empty_r (s : string) : s +:+ "" = s.
Proof.
  induction s as [| c s IH]; [done |].
  change (String c (s +:+ "") = String c s). by rewrite IH.
Qed.

(** How a returning construction came about; the process is as before. *)
Lemma Video_init_Return (video_dict : pyval) (env_prefix : string)
    (w w' : world) (v : Video) :
  Video___init__ video_dict env_prefix w = (Return v, w') ->
  w' = w /\
  prioritized_config video_dict "enable" (env_prefix +:+ "_ENABLE") py_bool true w
  = (Return (_enable v), w) /\
  prioritized_config video_dict "uri" (env_prefix +:+ "_URI") py_str false w
  = (Return (_uri v), w) /\
  ((py_eq_str (_uri v) "screen" = true /\ _protocol v = "screen" /\ _location v = "screen") \/
   (py_eq_str (_uri v) "screen" = false /\
    exists s rest, _uri v = VStr s /\
      str_split ":" s = _protocol v :: _location v :: rest)).
Proof.
  unfold Video___init__.
  intros (enable & w1 & H1 & Hk)%bind_Return.
  apply bind_Return in Hk as (uri & w2 & H2 & Hk).
  pose proof (prioritized_config_Return _ _ _ _ _ _ _ _ H1) as [-> _].
  pose proof (prioritized_config_Return _ _ _ _ _ _ _ _ H2) as [-> _].
  destruct (py_eq_str uri "screen") eqn:Hscreen.
  - injection Hk as <- <-. simpl. split_and!; try done. by left.
  - apply try_except_all_Return in Hk as [Hbody | (w1 & _ & Hhandler)].
    + apply bind_Return in Hbody as (parts & w3 & H3 & Hbody).
      apply bind_Return in Hbody as (protocol & w4 & H4 & Hbody).
      apply bind_Return in Hbody as (location & w5 & H5 & Hbody).
      unfold split in H3. destruct uri as [| | | s |]; try done.
      injection H3 as <- <-.
      unfold list_getitem in H4, H5.
      destruct (str_split ":" s) as [| p [| l rest]] eqn:Hs; try done.
      injection H4 as <- <-. injection H5 as <- <-. injection Hbody as <- <-.
      simpl. split_and!; try done. right. split; [done |]. by exists s, rest.
    + unfold bind, logger, emit, sys_exit in Hhandler. done.
Qed.

(** X5. A video endpoint whose URI is missing, or is not a string in the
    document, cannot be constructed although the resolver treats the URI as
    optional: the constructor logs one error and exits with status 1. *)
Theorem Video_without_uri_exits
    (video_dict : pyval) (env_prefix : string) (w : world) (enable uri : pyval) :
  prioritized_config video_dict "enable" (env_prefix +:+ "_ENABLE") py_bool true w
  = (Return enable, w) ->
  prioritized_config video_dict "uri" (env_prefix +:+ "_URI") py_str false w
  = (Return uri, w) ->
  is_str uri = false ->
  exists line,
    Video___init__ video_dict env_prefix w = (Exit 1, extend w [ELog ERR line]).
Proof.
  intros Henable Huri Hstr. unfold Video___init__, bind at 1 2.
  rewrite Henable, Huri. eexists.
  destruct uri; try done.
Qed.

Lemma Video_without_uri_exits_witness :
  exists line,
    Video___init__ (VDict (list_to_map [("enable", VBool true)]))
      "PIPELESS_OUTPUT_VIDEO" fresh
    = (Exit 1, extend fresh [ELog ERR line]).
Proof.
  apply (Video_without_uri_exits (VDict (list_to_map [("enable", VBool true)]))
           "PIPELESS_OUTPUT_VIDEO" fresh (VBool true) VNone); reflexivity.
Defined.

(** X6. Every constructed video endpoint either has the URI "screen", with
    protocol and location "screen", or has a string URI that starts with
    the protocol, a colon and the location, where neither the protocol nor
    the location holds a colon and whatever follows the location starts
    with a colon. *)
Theorem Video_protocol_and_location
    (video_dict : pyval) (env_prefix : string) (w w' : world) (v : Video) :
  Video___init__ video_dict env_prefix w = (Return v, w') ->
  (get_uri v = VStr "screen" /\
   get_uri_protocol v = "screen" /\ get_uri_location v = "screen") \/
  (exists s rest,
     get_uri v = VStr s /\ s <> "screen" /\
     s = get_uri_protocol v +:+ ":" +:+ get_uri_location v +:+ rest /\
     has_colon (get_uri_protocol v) = false /\
     has_colon (get_uri_location v) = false /\
     (rest = "" \/ exists r, rest = ":" +:+ r)).
Proof.
  intros Hv. apply Video_init_Return in Hv as (_ & _ & _ & Hshape).
  unfold get_uri, get_uri_protocol, get_uri_location.
  destruct Hshape as [(Hscreen & Hp & Hl) | (Hscreen & s & parts & Huri & Hsplit)].
  - left. destruct (_uri v) as [| | | s |]; try done.
    apply String.eqb_eq in Hscreen as ->. done.
  - right. rewrite Huri in Hscreen. simpl in Hscreen. apply String.eqb_neq in Hscreen.
    apply str_split_cons in Hsplit as (Hp & t & Hs & Ht).
    apply str_split_cons in Ht as (Hl & Hrest).
    destruct parts as [| q qs].
    + exists s, "". subst t. split_and!; try done; [| by left].
      by rewrite append_empty_r.
    + destruct Hrest as (r & -> & _). exists s, (":" +:+ r).
      split_and!; try done. right. by exists r.
Qed.

Lemma Video_protocol_and_location_witness :
  exists s rest,
    VStr "rtsp://cam:8554/live" = VStr s /\ s <> "screen" /\
    s = "rtsp" +:+ ":" +:+ "//cam" +:+ rest /\
    has_colon "rtsp" = false /\ has_colon "//cam" = false /\
    (rest = "" \/ exists r, rest = ":" +:+ r).
Proof.
  destruct (Video_protocol_and_location (demo_video "rtsp://cam:8554/live")
              "PIPELESS_INPUT_VIDEO" fresh fresh
              {| _enable := VBool true; _uri := VStr "rtsp://cam:8554/live";
                 _protocol := "rtsp"; _location := "//cam" |} eq_refl)
    as [(Hscreen & _) | Hshape]; [discriminate Hscreen | exact Hshape].
Defined.

(** X7. An enable flag taken from the environment is true for every
    non-empty string, "false" and "0" included, and false only for the
    empty string. *)
Theorem Video_enable_from_environment
    (video_dict : pyval) (env_prefix : string) (w w' : world) (v : Video) (s : string) :
  environ w !! (env_prefix +:+ "_ENABLE") = Some s ->
  Video___init__ video_dict env_prefix w = (Return v, w') ->
  is_enabled v = VBool (negb (String.eqb s "")).
Proof.
  intros Henv Hv. apply Video_init_Return in Hv as (_ & Henable & _).
  rewrite (prioritized_config_env _ _ _ py_bool true w s Henv) in Henable.
  unfold py_bool in Henable. by injection Henable.
Qed.

Lemma Video_enable_from_environment_witness :
  let w := set_environ {[ "PIPELESS_INPUT_VIDEO_ENABLE" := "false" ]} fresh in
  exists v,
    Video___init__ (VDict {[ "uri" := VStr "file:///a/b" ]}) "PIPELESS_INPUT_VIDEO" w
    = (Return v, w) /\
    is_enabled v = VBool true.
Proof.
  intros w.
  exists {| _enable := VBool true; _uri := VStr "file:///a/b";
            _protocol := "file"; _location := "///a/b" |}.
  split; [reflexivity |].
  apply (Video_enable_from_environment (VDict {[ "uri" := VStr "file:///a/b" ]})
           "PIPELESS_INPUT_VIDEO" w w _ "false"); reflexivity.
Defined.

(** ** The configuration as a whole *)

Lemma getitem_Return (o : pyval) (key : string) (w w' : world) (v : pyval) :
  getitem o key w = (Return v, w') -> w' = w.
Proof.
  destruct o as [| | | | d]; try done. simpl. destruct (d !! key); [| done].
  by intros [= _ <-].
Qed.

Lemma Input_init_Return (input_dict : pyval) (w w' : world) (i : Input) :
  Input___init__ input_dict w = (Return i, w') -> w' = w.
Proof.
  unfold Input___init__.
  intros (video_dict & w1 & H1 & Hk)%bind_Return.
  apply bind_Return in Hk as (video & w2 & H2 & Hk).
  apply bind_Return in Hk as (address_dict & w3 & H3 & Hk).
  apply bind_Return in Hk as (address & w4 & H4 & Hk).
  apply getitem_Return in H1 as ->. apply Video_init_Return in H2 as [-> _].
  apply getitem_Return in H3 as ->. apply Address_init_Return in H4 as ->.
  by injection Hk as _ <-.
Qed.

Lemma Output_init_Return (output_dict : pyval) (w w' : world) (o : Output) :
  Output___init__ output_dict w = (Return o, w') -> w' = w.
Proof.
  unfold Output___init__.
  intros (video_dict & w1 & H1 & Hk)%bind_Return.
  apply bind_Return in Hk as (video & w2 & H2 & Hk).
  apply bind_Return in Hk as (address_dict & w3 & H3 & Hk).
  apply bind_Return in Hk as (address & w4 & H4 & Hk).
  apply getitem_Return in H1 as ->. apply Video_init_Return in H2 as [-> _].
  apply getitem_Return in H3 as ->. apply Address_init_Return in H4 as ->.
  by injection Hk as _ <-.
Qed.

Lemma is_log_level_guard (v : pyval) :
  negb (py_eq_str v "INFO") && negb (py_eq_str v "DEBUG") && negb (py_eq_str v "WARN")
  = negb (is_log_level v).
Proof. unfold is_log_level. by rewrite !negb_orb. Qed.

(** How a returning construction came about: the level it resolved, and
    what it did to the process. *)
Lemma Config_init_Return `{Builtins} (config : pyval) (w w' : world) (cfg : Config) :
  Config___init__ config w = (Return cfg, w') ->
  exists lvl,
    prioritized_config config "log_level" "PIPELESS_LOG_LEVEL" py_str true w
    = (Return lvl, w) /\
    ((is_log_level lvl = true /\ get_log_level cfg = lvl /\ w' = w) \/
     (is_log_level lvl = false /\ get_log_level cfg = VStr "DEBUG" /\
      w' = extend w [ELog WARN [FLit "Unrecognized log level: "; FVal lvl;
                                FLit ". Must be INFO, WARN or DEBUG. Falling back to DEBUG"]])).
Proof.
  unfold Config___init__.
  intros (lvl & w1 & H1 & Hk)%bind_Return.
  apply bind_Return in Hk as (lvl' & w2 & H2 & Hk).
  apply bind_Return in Hk as (input_dict & w3 & H3 & Hk).
  apply bind_Return in Hk as (input & w4 & H4 & Hk).
  apply bind_Return in Hk as (output_dict & w5 & H5 & Hk).
  apply bind_Return in Hk as (output & w6 & H6 & Hk).
  apply bind_Return in Hk as (n_workers & w7 & H7 & Hk).
  pose proof (prioritized_config_Return _ _ _ _ _ _ _ _ H1) as [-> _].
  apply getitem_Return in H3 as ->. apply Input_init_Return in H4 as ->.
  apply getitem_Return in H5 as ->. apply Output_init_Return in H6 as ->.
  apply prioritized_config_Return in H7 as [-> _].
  injection Hk as <- <-. exists lvl. split; [exact H1 |].
  rewrite is_log_level_guard in H2. unfold get_log_level. simpl.
  destruct (is_log_level lvl); simpl in H2.
  - left. by injection H2 as <- <-.
  - right. unfold bind in H2. rewrite logger_extend in H2. by injection H2 as <- <-.
Qed.

(** X8. The log level of every constructed [Config] is one of 'INFO',
    'DEBUG' and 'WARN', whatever the document and the environment hold. *)
Theorem Config_log_level_is_recognised `{Builtins}
    (config : pyval) (w w' : world) (cfg : Config) :
  Config___init__ config w = (Return cfg, w') ->
  get_log_level cfg = VStr "INFO" \/
  get_log_level cfg = VStr "DEBUG" \/
  get_log_level cfg = VStr "WARN".
Proof.
  intros (lvl & _ & [(Hlvl & -> & _) | (_ & -> & _)])%Config_init_Return; [| by auto].
  unfold is_log_level in Hlvl. destruct lvl as [| | | s |]; try done. simpl in Hlvl.
  apply orb_true_iff in Hlvl as [[Hs | Hs]%orb_true_iff | Hs];
    apply String.eqb_eq in Hs; rewrite Hs; by auto.
Qed.

Lemma Config_log_level_is_recognised_witness :
  let w := set_environ {[ "PIPELESS_LOG_LEVEL" := "TRACE" ]} fresh in
  let cfg := with_log_level (VStr "DEBUG") (demo_config (VInt 2)) in
  fst (@Config___init__ ascii_builtins (demo_document (VInt 2)) w) = Return cfg /\
  (get_log_level cfg = VStr "INFO" \/
   get_log_level cfg = VStr "DEBUG" \/
   get_log_level cfg = VStr "WARN").
Proof.
  intros w cfg. split; [reflexivity |].
  apply (@Config_log_level_is_recognised ascii_builtins (demo_document (VInt 2)) w
           (snd (@Config___init__ ascii_builtins (demo_document (VInt 2)) w)) cfg).
  reflexivity.
Defined.

(** X9. A successful construction keeps a recognised log level and leaves
    the process as it was; it replaces any other level, a value that is not
    a string included, by 'DEBUG' and logs exactly one warning, and does
    nothing else to the process. *)
Theorem Config_log_level_fallback `{Builtins}
    (config : pyval) (w w' : world) (cfg : Config) (lvl : pyval) :
  prioritized_config config "log_level" "PIPELESS_LOG_LEVEL" py_str true w
  = (Return lvl, w) ->
  Config___init__ config w = (Return cfg, w') ->
  (is_log_level lvl = true -> get_log_level cfg = lvl /\ w' = w) /\
  (is_log_level lvl = false ->
   get_log_level cfg = VStr "DEBUG" /\
   w' = extend w [ELog WARN [FLit "Unrecognized log level: "; FVal lvl;
                             FLit ". Must be INFO, WARN or DEBUG. Falling back to DEBUG"]]).
Proof.
  intros Hlvl (lvl' & Hlvl' & Hcases)%Config_init_Return.
  rewrite Hlvl in Hlvl'. injection Hlvl' as <-.
  destruct Hcases as [(Hyes & Hcfg & Hw) | (Hno & Hcfg & Hw)].
  - split; [done | by rewrite Hyes].
  - split; [by rewrite Hno | done].
Qed.

Lemma Config_log_level_fallback_witness :
  let w := set_environ {[ "PIPELESS_LOG_LEVEL" := "TRACE" ]} fresh in
  let cfg := with_log_level (VStr "DEBUG") (demo_config (VInt 2)) in
  let w' := snd (@Config___init__ ascii_builtins (demo_document (VInt 2)) w) in
  get_log_level cfg = VStr "DEBUG" /\
  w' = extend w [ELog WARN [FLit "Unrecognized log level: "; FVal (VStr "TRACE");
                            FLit ". Must be INFO, WARN or DEBUG. Falling back to DEBUG"]].
Proof.
  intros w cfg w'.
  apply (@Config_log_level_fallback ascii_builtins (demo_document (VInt 2)) w w' cfg
           (VStr "TRACE")); reflexivity.
Defined.

Example Config_TRACE_falls_back_to_DEBUG :
  get_log_level <$>
    match fst (@Config___init__ ascii_builtins (demo_document (VInt 2))
                 (set_environ {[ "PIPELESS_LOG_LEVEL" := "TRACE" ]} fresh)) with
    | Return cfg => Some cfg
    | _ => None
    end
  = Some (VStr "DEBUG").
Proof. reflexivity. Qed.

(** X10. A configuration that is not a [dict], [None] included, cannot be
    constructed from: whatever the environment holds, the constructor
    raises [TypeError]; it does not exit, and at most logs. *)
Theorem Config_from_non_dict_raises_TypeError `{Builtins} (config : pyval) (w : world) :
  is_dict config = false ->
  exists evs,
    Config___init__ config w = (Raise TypeError, extend w evs) /\
    forallb is_log evs = true.
Proof.
  intros Hconfig. unfold Config___init__. unfold bind at 1.
  unfold prioritized_config at 1. unfold bind at 1, os_environ_get, ask.
  destruct (environ w !! (ENV_PREFIX +:+ "_LOG_LEVEL")) as [value |]; simpl.
  - unfold bind at 1.
    destruct (negb (String.eqb value "INFO") && negb (String.eqb value "DEBUG")
              && negb (String.eqb value "WARN")); simpl.
    + unfold bind at 1. destruct config; try done; by eexists.
    + exists []. rewrite extend_nil. unfold bind. by destruct config.
  - exists []. rewrite extend_nil. unfold try_except. by destruct config.
Qed.

Lemma Config_from_non_dict_raises_TypeError_witness :
  exists evs,
    @Config___init__ ascii_builtins VNone fresh_env4 = (Raise TypeError, extend fresh_env4 evs) /\
    forallb is_log evs = true.
Proof.
  apply (@Config_from_non_dict_raises_TypeError ascii_builtins VNone fresh_env4).
  reflexivity.
Defined.

(** X11. A document without an 'input' section fails with an uncaught
    [KeyError] once the log level is resolved, not with the resolver's
    fatal exit, and however many PIPELESS_INPUT_* variables the environment
    sets. *)
Theorem Config_without_input_section_raises_KeyError `{Builtins}
    (d : gmap string pyval) (w : world) (lvl : pyval) :
  prioritized_config (VDict d) "log_level" "PIPELESS_LOG_LEVEL" py_str true w
  = (Return lvl, w) ->
  d !! "input" = None ->
  exists evs,
    Config___init__ (VDict d) w = (Raise KeyError, extend w evs) /\
    forallb is_log evs = true.
Proof.
  intros Hlvl Hinput. unfold Config___init__. unfold bind at 1.
  change (ENV_PREFIX +:+ "_LOG_LEVEL") with "PIPELESS_LOG_LEVEL". rewrite Hlvl.
  unfold bind at 1. rewrite is_log_level_guard.
  destruct (is_log_level lvl); simpl.
  - exists []. rewrite extend_nil. unfold bind. simpl. by rewrite Hinput.
  - exists [ELog WARN [FLit "Unrecognized log level: "; FVal lvl;
                       FLit ". Must be INFO, WARN or DEBUG. Falling back to DEBUG"]].
    split; [| done]. unfold bind, logger, emit, ret, getitem. by rewrite Hinput.
Qed.

Lemma Config_without_input_section_raises_KeyError_witness :
  let w := set_environ {[ "PIPELESS_INPUT_VIDEO_URI" := "file:///a/b" ]} fresh in
  exists evs,
    @Config___init__ ascii_builtins (VDict {[ "log_level" := VStr "INFO" ]}) w
    = (Raise KeyError, extend w evs) /\
    forallb is_log evs = true.
Proof.
  intros w.
  apply (@Config_without_input_section_raises_KeyError ascii_builtins
           {[ "log_level" := VStr "INFO" ]} w (VStr "INFO")); reflexivity.
Defined.

(** * Further properties of input.py *)

(** ** The frame-capture callback *)

(** X12. With a sample, a mappable buffer and caps that give a width and a
    height the mapped bytes can fill, [on_new_sample] sends exactly one
    frame message to the workers, by the plain [send], carrying the width,
    the height, the buffer's three timing fields and [width * height * 3]
    bytes; it unmaps the buffer after the send and returns OK. *)
Theorem frame_sent_then_unmapped
    (sink : AppSink) (w : world) (width height : Z) (buffer : Buffer) :
  capture_ready sink width height buffer ->
  exists line ndframe,
    on_new_sample sink w
    = (Return FlowOK,
       extend w [ELog DEBUG line;
                 ESend InputPushSocket
                   (serialize (RgbImageMsg width height ndframe
                                 (dts buffer) (pts buffer) (duration buffer)));
                 EUnmap]) /\
    Z.of_nat (length ndframe) = width * height * 3.
Proof.
  intros (sample & caps & st & Hsample & Hbuffer & Hmap & Hcaps & Hst & Hw & Hh
          & Hwpos & Hhpos & Hlen).
  unfold on_new_sample. rewrite Hsample, Hbuffer, Hmap, Hcaps. simpl negb. cbv iota.
  unfold bind at 1. rewrite logger_extend.
  unfold bind at 1. unfold attr_of at 1. unfold ret at 1.
  unfold bind at 1. rewrite Hst. unfold attr_of at 1. unfold ret at 1.
  rewrite Hw, Hh. unfold np_ndarray.
  assert (Hneg : (height <? 0) || (width <? 0) = false).
  { apply orb_false_iff. split; apply Z.ltb_ge; lia. }
  assert (Hfit : (Z.of_nat (length (map_data buffer)) <? height * width * 3) = false).
  { apply Z.ltb_ge. lia. }
  unfold bind at 1. rewrite Hneg, Hfit. unfold ret at 1.
  run_events. eexists _, _. split; [reflexivity |].
  rewrite length_take. nia.
Qed.

Lemma frame_sent_then_unmapped_witness :
  exists line ndframe,
    on_new_sample demo_sink fresh
    = (Return FlowOK,
       extend fresh [ELog DEBUG line;
                     ESend InputPushSocket
                       (serialize (RgbImageMsg 1 1 ndframe 0 0 40));
                     EUnmap]) /\
    Z.of_nat (length ndframe) = 1 * 1 * 3.
Proof.
  apply (frame_sent_then_unmapped demo_sink fresh 1 1
           {| map_success := true; map_data := [Byte.x00; Byte.x01; Byte.x02];
              dts := 0; pts := 0; duration := 40 |}).
  exists {| get_caps := Some demo_caps;
            get_buffer := Some {| map_success := true;
                                  map_data := [Byte.x00; Byte.x01; Byte.x02];
                                  dts := 0; pts := 0; duration := 40 |} |},
    demo_caps, (list_to_map [("width", 1); ("height", 1)]).
  split_and!; try reflexivity; simpl; lia.
Defined.

(** Closes one case of the frame-capture callback: collects what the case
    appended to the trace and reads the outcome off. *)
Ltac capture_case :=
  cbv [bind attr_of ret raise logger emit negb np_ndarray]; simpl;
  rewrite <- ?app_assoc; simpl;
  eexists _, _; (split; [unfold extend; reflexivity |]);
  split_and!; try done; simpl; split; intros; done.

(** X13. Whatever the sink holds, [on_new_sample] returns or raises but
    never exits, and changes nothing but the trace.  The buffer is unmapped
    exactly when the callback returns OK, and a message is sent exactly
    then: when the frame cannot be built after a successful map (no caps,
    no width or height, too few bytes) the callback raises with the buffer
    still mapped. *)
Theorem buffer_unmapped_only_on_OK (sink : AppSink) (w : world) :
  exists r evs,
    on_new_sample sink w = (r, extend w evs) /\
    (forall n, r <> Exit n) /\
    (existsb is_unmap evs = true <-> r = Return FlowOK) /\
    (existsb is_send evs = true <-> r = Return FlowOK).
Proof.
  unfold on_new_sample.
  destruct (pull_sample sink) as [sample |]; [| capture_case].
  destruct (get_buffer sample) as [buffer |]; [| capture_case].
  destruct (map_success buffer); [| capture_case].
  destruct (get_caps sample) as [caps |]; [| capture_case].
  cbv [bind attr_of ret raise logger emit negb].
  destruct (get_structure_0 caps) as [st |]; [| capture_case].
  destruct (st !! "width") as [width |]; [| capture_case].
  destruct (st !! "height") as [height |]; [| capture_case].
  cbv [np_ndarray bind ret raise].
  destruct ((height <? 0) || (width <? 0)); [capture_case |].
  destruct (Z.of_nat (length (map_data buffer)) <? height * width * 3); capture_case.
Qed.

(** A mapped buffer with too few bytes for the negotiated size. *)
Example short_buffer_stays_mapped :
  on_new_sample
    {| pull_sample :=
         Some {| get_caps := Some demo_caps;
                 get_buffer := Some {| map_success := true; map_data := [Byte.x00];
                                       dts := 0; pts := 0; duration := 40 |} |} |}
    fresh
  = (Raise TypeError,
     extend fresh [ELog DEBUG [FLit "Sample caps: "; FCaps (Some demo_caps)]]).
Proof. reflexivity. Qed.

(** ** The bus handler *)

(** X14. Every bus message other than EOS is handled: [on_bus_message]
    returns True.  Only an ERROR message quits the loop, and only a TAG
    message sends anything: one Tags message to the output component, by
    the plain [send]. *)
Theorem bus_message_handled `{Builtins} (msg : Message) (w : world) :
  msg <> EOS ->
  exists evs,
    on_bus_message msg w
    = (Return true, set_running (running w && negb (is_ERROR msg)) (extend w evs)) /\
    sends evs = match msg with
                | TAG tags => [ESend InputOutputSocket (serialize (StreamTagsMsg tags))]
                | _ => []
                end /\
    (existsb (fun e => match e with ELoopQuit => true | _ => false end) evs
     = is_ERROR msg).
Proof.
  intros Hmsg. destruct w as [env inst linked pr run tr].
  destruct msg as [| src err debug | src err debug | o n p | tags |];
    [done | | | | |
     exists []; cbv [on_bus_message ret set_running extend]; simpl;
     by rewrite app_nil_r, andb_true_r];
    unfold on_bus_message, loop_quit;
    cbv [bind ret logger emit engine set_running extend]; simpl;
    rewrite <- ?app_assoc; simpl; rewrite ?andb_true_r, ?andb_false_r;
    eexists; (split; [reflexivity |]); done.
Qed.

Lemma bus_message_handled_witness :
  exists evs,
    @on_bus_message ascii_builtins (ERROR "uridecodebin" "no such file" None) configured
    = (Return true, set_running false (extend configured evs)) /\
    sends evs = [] /\
    existsb (fun e => match e with ELoopQuit => true | _ => false end) evs = true.
Proof.
  apply (@bus_message_handled ascii_builtins
           (ERROR "uridecodebin" "no such file" None) configured).
  discriminate.
Defined.

(** X15. When the worker count of the configuration is not an [int] (a
    string from the document, [None], a [dict]), handling EOS notifies the
    output component and then raises [TypeError]: no worker is notified. *)
Theorem EOS_with_non_int_worker_count `{Builtins} (w : world) (cfg : Config) :
  instances w = Some cfg ->
  is_int (get_n_workers cfg) = false ->
  on_bus_message EOS w
  = (Raise TypeError,
     extend w [ELog INFO [FLit "End of stream reached."];
               ELog DEBUG [FLit "Notifying EOS to output"];
               ESend InputOutputSocket (serialize EndOfStreamMsg)]).
Proof.
  intros Hcfg Hn. unfold on_bus_message.
  unfold bind at 1. rewrite logger_extend.
  unfold bind at 1. rewrite logger_extend.
  unfold bind at 1. rewrite emit_extend.
  unfold bind at 1. rewrite (Config_call_constructed VNone _ cfg) by done.
  rewrite !extend_extend. unfold bind, range.
  by destruct (get_n_workers cfg).
Qed.

Lemma EOS_with_non_int_worker_count_witness :
  let w := set_instances (Some (demo_config (VStr "3"))) fresh in
  @on_bus_message ascii_builtins EOS w
  = (Raise TypeError,
     extend w [ELog INFO [FLit "End of stream reached."];
               ELog DEBUG [FLit "Notifying EOS to output"];
               ESend InputOutputSocket (serialize EndOfStreamMsg)]).
Proof.
  intros w.
  apply (@EOS_with_non_int_worker_count ascii_builtins w (demo_config (VStr "3")));
    reflexivity.
Defined.

(** X16. With a worker count of zero or less, handling EOS notifies the
    output component only and returns True: the loop over the workers runs
    no iteration. *)
Theorem EOS_with_no_workers `{Builtins} (w : world) (cfg : Config) (n : Z) :
  instances w = Some cfg ->
  get_n_workers cfg = VInt n ->
  n <= 0 ->
  on_bus_message EOS w
  = (Return true,
     extend w [ELog INFO [FLit "End of stream reached."];
               ELog DEBUG [FLit "Notifying EOS to output"];
               ESend InputOutputSocket (serialize EndOfStreamMsg)]).
Proof.
  intros Hcfg Hn Hle. rewrite (on_bus_message_EOS w cfg n Hcfg Hn).
  replace (Z.to_nat n) with 0%nat by lia. done.
Qed.

Lemma EOS_with_no_workers_witness :
  let w := set_instances (Some (demo_config (VInt (-1)))) fresh in
  @on_bus_message ascii_builtins EOS w
  = (Return true,
     extend w [ELog INFO [FLit "End of stream reached."];
               ELog DEBUG [FLit "Notifying EOS to output"];
               ESend InputOutputSocket (serialize EndOfStreamMsg)]).
Proof.
  intros w.
  apply (@EOS_with_no_workers ascii_builtins w (demo_config (VInt (-1))) (-1));
    [reflexivity | reflexivity | lia].
Defined.

(** ** Probes and pads *)

Lemma count_caps_sends_app (a b : list event) :
  count_caps_sends (a ++ b) = (count_caps_sends a + count_caps_sends b)%nat.
Proof. unfold count_caps_sends. by rewrite List.filter_app, length_app. Qed.

(** Running the probes of a pad: each probe that is detached has sent one
    [Caps] message, and nothing else is sent. *)
Lemma run_probes_conserves (pad : Pad) (attached : list string) (w : world) :
  exists evs remaining,
    run_probes pad attached w = (Return remaining, extend w evs) /\
    (count_caps_sends evs + length remaining = length attached)%nat /\
    sends evs = List.filter is_caps_send evs.
Proof.
  revert w. induction attached as [| p rest IH]; intros w; simpl.
  - exists [], []. by rewrite extend_nil.
  - destruct (String.eqb p (get_name pad)).
    + destruct (get_current_caps pad) as [caps |] eqn:Hcaps.
      * destruct (on_pad_upstream_event_negotiated pad caps w Hcaps) as (line & Hrun).
        unfold bind at 1. rewrite Hrun.
        edestruct IH as (evs & remaining & Hrest & Hcount & Hsends).
        unfold bind. rewrite Hrest. unfold ret. rewrite extend_extend.
        eexists _, remaining. split; [reflexivity |].
        rewrite count_caps_sends_app, sends_app, List.filter_app, Hsends.
        split; [| done].
        change (count_caps_sends [ELog DEBUG line;
                  ESend InputOutputSocket (serialize (StreamCapsMsg (to_string caps)))])
          with 1%nat.
        simpl. lia.
      * unfold bind at 1. rewrite (on_pad_upstream_event_waiting pad w Hcaps).
        destruct (IH w) as (evs & remaining & Hrest & Hcount & Hsends).
        unfold bind. rewrite Hrest. exists evs, (p :: remaining).
        split; [done |]. split; [simpl; lia | done].
    + destruct (IH w) as (evs & remaining & Hrest & Hcount & Hsends).
      unfold bind. rewrite Hrest. exists evs, (p :: remaining).
      split; [done |]. split; [simpl; lia | done].
Qed.

Lemma upstream_event_conserves (pad : Pad) (w : world) :
  exists evs remaining,
    upstream_event pad w = (Return tt, set_probes remaining (extend w evs)) /\
    (count_caps_sends evs + length remaining = length (probes w))%nat /\
    sends evs = List.filter is_caps_send evs.
Proof.
  destruct (run_probes_conserves pad (probes w) w)
    as (evs & remaining & Hrun & Hcount & Hsends).
  exists evs, remaining. split; [| done].
  unfold upstream_event, bind, ask, engine. by rewrite Hrun.
Qed.

(** X17. Over any upstream events of any pads, from any state of the
    probes: the number of Caps messages sent and the number of probes still
    attached add up to the number of probes attached before, and nothing but
    Caps messages is sent.  So each attached probe sends at most one Caps
    message, and a pad given two probes sends two. *)
Theorem Caps_messages_match_detached_probes (pads : list Pad) (w : world) :
  exists evs remaining,
    upstream_events pads w = (Return tt, set_probes remaining (extend w evs)) /\
    (count_caps_sends evs + length remaining = length (probes w))%nat /\
    sends evs = List.filter is_caps_send evs.
Proof.
  revert w. induction pads as [| pad rest IH]; intros w.
  - exists [], (probes w). rewrite extend_nil, set_probes_same. done.
  - unfold upstream_events in *. simpl. unfold bind at 1.
    destruct (upstream_event_conserves pad w)
      as (evs1 & remaining1 & -> & Hcount1 & Hsends1).
    destruct (IH (set_probes remaining1 (extend w evs1)))
      as (evs2 & remaining2 & -> & Hcount2 & Hsends2).
    exists (evs1 ++ evs2), remaining2. split.
    + unfold set_probes, extend. simpl. by rewrite app_assoc.
    + rewrite count_caps_sends_app, sends_app, List.filter_app, Hsends1, Hsends2.
      simpl in Hcount2. split; [lia | done].
Qed.

(** A pad whose probe was attached twice sends its caps twice. *)
Example two_probes_two_Caps_messages :
  count_caps_sends
    (effects (handle_caps_change video_pad ;;;
              handle_caps_change video_pad ;;;
              upstream_events [video_pad_negotiated; video_pad_negotiated])
       fresh)
  = 2%nat.
Proof. reflexivity. Qed.

(** X18. For every new pad, the two callbacks registered for [pad-added]
    attach one caps probe to it, also when the pad is skipped for linking;
    a link is attempted exactly when the sink pad is not linked yet, and
    nothing is sent. *)
Theorem pad_added_always_probes (pad : Pad) (w : world) :
  exists evs,
    on_pad_added pad [pad_added_callback; handle_caps_change] w
    = (Return tt,
       set_probes (probes w ++ [get_name pad])
         (set_is_linked (is_linked w || link_accepted pad) (extend w evs))) /\
    link_attempts evs = (if is_linked w then [] else [ELink (get_name pad)]) /\
    sends evs = [].
Proof.
  unfold on_pad_added. simpl. unfold bind at 1.
  destruct (is_linked w) eqn:Hw.
  - rewrite (pad_added_callback_linked pad w Hw).
    exists [ELog WARN
              [FLit "Video converter pad is already linked. Skipping uridecoder link"]].
    split; [| done].
    unfold bind, handle_caps_change, engine, ret, set_probes, set_is_linked, extend.
    simpl. by rewrite Hw.
  - rewrite (pad_added_callback_unlinked pad w Hw).
    exists [ELog INFO [FLit "Linking uridecoderbin pad to videoconvert pad"];
            ELink (get_name pad)].
    split; [| done].
    unfold bind, handle_caps_change, engine, ret, set_probes, set_is_linked, extend.
    simpl. done.
Qed.

(** ** What reaches each channel *)

Section Typed.
Context `{Builtins}.

Lemma typed_on_new_sample (sink : AppSink) : quiet channel_typed (on_new_sample sink).
Proof.
  unfold on_new_sample.
  destruct (pull_sample sink) as [sample |]; [| quiet_steps].
  destruct (get_buffer sample) as [buffer |]; [| quiet_steps].
  destruct (map_success buffer); simpl; [| quiet_steps].
  quiet_steps.
  destruct (_ !! "width") as [width |]; [| quiet_steps].
  destruct (_ !! "height") as [height |]; quiet_steps.
Qed.

Lemma typed_on_bus_message (msg : Message) : quiet channel_typed (on_bus_message msg).
Proof.
  destruct msg; unfold on_bus_message, loop_quit; quiet_steps;
    try (apply quiet_Config_call_None; done).
  unfold range. destruct (get_n_workers _); quiet_steps.
Qed.

Lemma typed_run_probes (pad : Pad) (attached : list string) :
  quiet channel_typed (run_probes pad attached).
Proof.
  induction attached as [| p rest IH]; simpl; [quiet_steps |].
  destruct (String.eqb p (get_name pad)).
  - apply quiet_bind; [| intros r].
    + unfold on_pad_upstream_event. destruct (get_current_caps pad); quiet_steps.
    + apply quiet_bind; [apply IH | intros ?; quiet_steps].
  - apply quiet_bind; [apply IH | intros ?; quiet_steps].
Qed.

Lemma typed_dispatch (s : Signal) : quiet channel_typed (dispatch s).
Proof.
  destruct s as [sink | msg | pad | pad]; simpl.
  - apply quiet_bind; [apply typed_on_new_sample | intros ?; quiet_steps].
  - apply quiet_bind; [apply typed_on_bus_message | intros ?; quiet_steps].
  - unfold on_pad_added. simpl.
    apply quiet_bind; [| intros ?].
    + unfold pad_added_callback. apply quiet_bind; [quiet_steps | intros linked].
      destruct linked; simpl; unfold link; quiet_steps.
    + apply quiet_bind; [unfold handle_caps_change; quiet_steps | intros ?; quiet_steps].
  - unfold upstream_event. apply quiet_bind; [quiet_steps | intros attached].
    apply quiet_bind; [apply typed_run_probes | intros ?; quiet_steps].
Qed.

Lemma channels_typed_run (signals : list Signal) (w : world) :
  exists evs,
    trace (loop_run signals w) = trace w ++ evs /\
    forallb channel_typed evs = true /\
    environ (loop_run signals w) = environ w /\
    instances (loop_run signals w) = instances w.
Proof.
  revert w. induction signals as [| s rest IH]; intros w.
  - exists []. simpl. by rewrite app_nil_r.
  - destruct (running w) eqn:Hw.
    + rewrite (loop_run_cons s rest w Hw).
      destruct (typed_dispatch s w) as (evs1 & Ht1 & Hok1 & He1 & Hi1 & _).
      destruct (IH (snd (dispatch s w))) as (evs2 & Ht2 & Hok2 & He2 & Hi2).
      exists (evs1 ++ evs2).
      rewrite Ht2, Ht1, He2, He1, Hi2, Hi1, forallb_app, Hok1, Hok2.
      by rewrite app_assoc.
    + rewrite (loop_run_stopped _ w Hw). exists []. by rewrite app_nil_r.
Qed.

End Typed.

(** X20. The EOS handler keeps no memory of an earlier EOS: [k] EOS bus
    events in a row produce the whole block of EndOfStream sends [k]
    times, one send to the output component followed by one per worker each
    time. *)
Theorem every_EOS_event_sends_its_block `{Builtins}
    (k : nat) (w : world) (cfg : Config) (n : Z) :
  instances w = Some cfg ->
  get_n_workers cfg = VInt n ->
  running w = true ->
  exists evs,
    loop_run (repeat (BusMessage EOS) k) w = extend w evs /\
    sends evs = concat (repeat (eos_block (Z.to_nat n)) k).
Proof.
  intros Hcfg Hn. revert w Hcfg. induction k as [| k IH]; intros w Hcfg Hrun.
  - exists []. by rewrite extend_nil.
  - simpl repeat. rewrite (loop_run_cons _ _ w Hrun).
    cbn [dispatch]. unfold bind at 1. rewrite (on_bus_message_EOS w cfg n Hcfg Hn).
    unfold ret. cbn [snd].
    destruct (IH (extend w (eos_events (Z.to_nat n))) Hcfg Hrun) as (evs & -> & Hevs).
    exists (eos_events (Z.to_nat n) ++ evs). rewrite extend_extend. split; [done |].
    by rewrite sends_app, sends_eos_events, Hevs.
Qed.

Lemma every_EOS_event_sends_its_block_witness :
  exists evs,
    @loop_run ascii_builtins [BusMessage EOS; BusMessage EOS] configured
    = extend configured evs /\
    sends evs = eos_block 2 ++ eos_block 2 ++ [].
Proof.
  apply (@every_EOS_event_sends_its_block ascii_builtins 2 configured
           (demo_config (VInt 2)) 2); reflexivity.
Defined.

(** * Properties of [input()] *)

Lemma liftM_extend {A} (c : M A) (w : world) (tr : list step)
    (r : outcome A) (evs : list event) :
  c w = (r, extend w evs) ->
  liftM c (w, tr) = (outcome_to_N r, (extend w evs, tr ++ (Effect <$> evs))).
Proof.
  intros Hc. unfold liftM, effects. simpl. rewrite Hc. simpl.
  by rewrite drop_app_length.
Qed.

Lemma liftM_logger (lvl : level) (text : list fpart) (w : world) (tr : list step) :
  liftM (logger lvl text) (w, tr)
  = (NReturn tt, (extend w [ELog lvl text], tr ++ [Effect (ELog lvl text)])).
Proof. by rewrite (liftM_extend _ _ _ (Return tt) [ELog lvl text]). Qed.

Lemma liftM_engine (f : world -> world) (w : world) (tr : list step) :
  trace (f w) = trace w ->
  liftM (engine f) (w, tr) = (NReturn tt, (f w, tr)).
Proof.
  intros Hf. unfold liftM, effects, engine. simpl. by rewrite Hf, drop_all, app_nil_r.
Qed.

Lemma liftM_Config_call `{Builtins} (w : world) (tr : list step) (cfg : Config) :
  instances w = Some cfg ->
  liftM (Config___call__ VNone) (w, tr) = (NReturn cfg, (w, tr)).
Proof.
  intros Hw. unfold liftM, effects. simpl.
  rewrite (Config_call_constructed VNone w cfg Hw). simpl.
  by rewrite drop_all, app_nil_r.
Qed.

Lemma existsb_Effect (p : step -> bool) (evs : list event) :
  (forall e, p (Effect e) = false) -> existsb p (Effect <$> evs) = false.
Proof.
  intros Hp. induction evs as [| e evs IH]; [done |].
  rewrite fmap_cons. cbn [existsb]. by rewrite Hp, IH.
Qed.

(** Runs the straight-line part of [input()]. *)
Ltac input_steps :=
  repeat first
    [ rewrite liftM_logger
    | rewrite liftM_engine by reflexivity
    | progress cbn [retN callN stepN fst snd for_eachN exit_if negb exitN debug_state
                    is_FAILURE outcome_to_N]
    | unfold bindN at 1 ].

(** Closes a case in which [input()] exits before the pipeline plays. *)
Ltac input_fails :=
  input_steps; rewrite <- !app_assoc; simpl;
  eexists _, _, _; split_and!; reflexivity.

(** X21. When the engine does not create the pipeline or one of the three
    elements, does not link the normalization stage to the sink, or fails to
    reach PLAYING, [input()] exits with status 1 right after one error line:
    no socket is opened or closed, the loop is not run, the pipeline is not
    set to NULL and nothing is sent. *)
Theorem input_exits_when_start_fails `{Builtins}
    (gst : Engine) (w : world) (tr : list step) (cfg : Config) :
  instances w = Some cfg ->
  starts gst = false ->
  exists w' steps line,
    input gst (w, tr) = (NExit 1, (w', tr ++ steps)) /\
    last steps = Some (Effect (ELog ERR line)) /\
    length (List.filter is_error_line steps) = 1%nat /\
    existsb is_run_or_teardown steps = false.
Proof.
  intros Hcfg Hstart. unfold starts in Hstart. unfold input.
  unfold bindN at 1. rewrite (liftM_Config_call w tr cfg Hcfg).
  destruct (Pipeline_new gst);
    [| input_fails].
  destruct (ElementFactory_make gst "uridecodebin3");
    [| input_fails].
  destruct (ElementFactory_make gst "videoconvert");
    [| input_fails].
  destruct (ElementFactory_make gst "appsink");
    [| input_fails].
  destruct (videoconvert_link gst);
    [| input_fails].
  destruct (pipeline_set_state_PLAYING gst); [| done | done | done].
  input_fails.
Qed.

Lemma input_exits_when_start_fails_witness :
  exists w' steps line,
    @input ascii_builtins engine_without_appsink (configured, [])
    = (NExit 1, (w', [] ++ steps)) /\
    last steps = Some (Effect (ELog ERR line)) /\
    length (List.filter is_error_line steps) = 1%nat /\
    existsb is_run_or_teardown steps = false.
Proof.
  apply (@input_exits_when_start_fails ascii_builtins engine_without_appsink
           configured [] (demo_config (VInt 2))); reflexivity.
Defined.

Lemma input_finally_steps (w : world) (tr : list step) :
  input_finally (w, tr)
  = (NReturn tt,
     (extend w [ELog INFO [FLit "Closing pipeline"]; ELog INFO [FLit "Pipeline closed"]],
      tr ++ teardown)).
Proof.
  unfold input_finally. input_steps. unfold callN, stepN. cbn [fst snd].
  by rewrite <- !app_assoc, extend_extend.
Qed.

Lemma liftM_loop_quit (w : world) (tr : list step) :
  liftM loop_quit (w, tr)
  = (NReturn tt, (extend (set_running false w) [ELoopQuit], tr ++ [Effect ELoopQuit])).
Proof.
  unfold liftM, effects, loop_quit, bind, engine, emit. simpl.
  by rewrite drop_app_length.
Qed.

(** The [try] block: the opening steps, then what the callbacks do on the
    delivered signals; it returns when they quit the loop and is interrupted
    otherwise. *)
Lemma input_try_steps `{Builtins} (gst : Engine) (w : world) (tr : list step) :
  exists evs,
    trace (loop_run (delivered gst) w) = trace w ++ evs /\
    input_try gst (w, tr)
    = (if running (loop_run (delivered gst) w)
       then NRaise (interrupted_by gst) else NReturn tt,
       (loop_run (delivered gst) w, tr ++ opening gst ++ (Effect <$> evs))).
Proof.
  destruct (channels_typed_run (delivered gst) w) as (evs & Hevs & _).
  exists evs. split; [done |].
  unfold input_try, loop_run_N, debug_state. input_steps. cbv zeta. cbn [fst snd].
  rewrite Hevs, drop_app_length. by rewrite <- !app_assoc.
Qed.

(** X22. Once the pipeline plays, [input()] returns normally however the
    loop ends (quit by a callback, interrupted from the keyboard, or by any
    other exception), and its last steps are always the teardown, in order:
    the pipeline is set to NULL, then the output socket and then the worker
    socket are fetched and closed.  A keyboard interruption prints no
    traceback. *)
Theorem input_always_tears_down `{Builtins}
    (gst : Engine) (w : world) (tr : list step) (cfg : Config) :
  instances w = Some cfg ->
  starts gst = true ->
  exists w' steps,
    input gst (w, tr) = (NReturn tt, (w', tr ++ steps ++ teardown)) /\
    (interrupted_by gst = KeyboardInterrupt -> existsb is_print_exc steps = false).
Proof.
  intros Hcfg Hstart. unfold starts in Hstart.
  apply andb_true_iff in Hstart as [Hstart Hplaying].
  apply andb_true_iff in Hstart as [Hstart Hlink].
  apply andb_true_iff in Hstart as [Hstart Happsink].
  apply andb_true_iff in Hstart as [Hstart Hconvert].
  apply andb_true_iff in Hstart as [Hpipeline Hdecode].
  unfold input. unfold bindN at 1. rewrite (liftM_Config_call w tr cfg Hcfg).
  rewrite Hpipeline, Hdecode, Hconvert, Happsink, Hlink.
  apply negb_true_iff in Hplaying. rewrite Hplaying.
  input_steps. rewrite <- !app_assoc.
  match goal with
  | |- context [try_except_finally _ _ _ (?w1, tr ++ ?setup)] =>
      set (started := w1); set (before := setup)
  end.
  assert (Hbefore : existsb is_print_exc before = false) by reflexivity.
  clearbody before started.
  unfold try_except_finally.
  destruct (input_try_steps gst started (tr ++ before)) as (evs & _ & ->).
  destruct (running (loop_run (delivered gst) started)).
  - destruct (interrupted_by gst) as [e | |] eqn:Hby; cbn [input_except].
    + unfold bindN. cbn [callN stepN fst snd]. rewrite liftM_loop_quit.
      rewrite input_finally_steps.
      eexists _, (before ++ opening gst ++ (Effect <$> evs)
                  ++ [Call traceback_print_exc; Effect ELoopQuit]).
      split; [| done]. by rewrite <- !app_assoc.
    + unfold retN. rewrite input_finally_steps.
      eexists _, (before ++ opening gst ++ (Effect <$> evs)).
      split; [by rewrite <- !app_assoc |]. intros _.
      rewrite !existsb_app, Hbefore. by rewrite existsb_Effect.
    + unfold bindN. cbn [callN stepN fst snd]. rewrite liftM_loop_quit.
      rewrite input_finally_steps.
      eexists _, (before ++ opening gst ++ (Effect <$> evs)
                  ++ [Call traceback_print_exc; Effect ELoopQuit]).
      split; [| done]. by rewrite <- !app_assoc.
  - rewrite input_finally_steps.
    eexists _, (before ++ opening gst ++ (Effect <$> evs)).
    split; [by rewrite <- !app_assoc |]. intros _.
    rewrite !existsb_app, Hbefore. by rewrite existsb_Effect.
Qed.

Lemma input_always_tears_down_witness :
  let gst := demo_engine [PadAdded video_pad; NewSample demo_sink; BusMessage EOS]
               OtherException in
  exists w' steps,
    @input ascii_builtins gst (configured, []) = (NReturn tt, (w', [] ++ steps ++ teardown)) /\
    (interrupted_by gst = KeyboardInterrupt -> existsb is_print_exc steps = false).
Proof.
  intros gst.
  apply (@input_always_tears_down ascii_builtins gst configured []
           (demo_config (VInt 2))); reflexivity.
Defined.

(** X23. [input()] needs the configuration to exist already: called while
    the singleton holds no instance, its [Config(None)] raises [TypeError]
    before any call into the engine is made; at most a log line is
    written. *)
Theorem input_needs_constructed_Config `{Builtins}
    (gst : Engine) (w : world) (tr : list step) :
  instances w = None ->
  exists evs,
    input gst (w, tr) = (NRaise (Exc TypeError), (extend w evs, tr ++ (Effect <$> evs))) /\
    forallb is_log evs = true.
Proof.
  intros Hw. destruct (Config_init_None w) as (evs & Hinit & Hlogs).
  exists evs. split; [| done]. unfold input. unfold bindN at 1.
  rewrite (liftM_extend _ w tr (Raise TypeError) evs); [done |].
  unfold Config___call__, Singleton___call__. by rewrite Hw, Hinit.
Qed.

Lemma input_needs_constructed_Config_witness :
  exists evs,
    @input ascii_builtins (demo_engine [] KeyboardInterrupt) (fresh, [])
    = (NRaise (Exc TypeError), (extend fresh evs, [] ++ (Effect <$> evs))) /\
    forallb is_log evs = true.
Proof.
  apply (@input_needs_constructed_Config ascii_builtins
           (demo_engine [] KeyboardInterrupt) fresh []). reflexivity.
Defined.

(** * What the configuration reads of the environment *)

Section Reads.
Variable P : string -> Prop.

Lemma reads_ret {A} (a : A) : reads P (ret a).
Proof. done. Qed.

Lemma reads_raise {A} (e : exn) : reads P (@raise A e).
Proof. done. Qed.

Lemma reads_sys_exit {A} (n : Z) : reads P (@sys_exit A n).
Proof. done. Qed.

Lemma reads_lift {A} (o : outcome A) : reads P (lift o).
Proof. done. Qed.

Lemma reads_logger (lvl : level) (text : list fpart) : reads P (logger lvl text).
Proof. done. Qed.

Lemma reads_os_environ_get (name : string) : P name -> reads P (os_environ_get name).
Proof. intros Hname w env Henv. unfold os_environ_get, ask. simpl. by rewrite Henv. Qed.

Lemma reads_getitem (o : pyval) (key : string) : reads P (getitem o key).
Proof. destruct o as [| | | | d]; try done. simpl. by destruct (d !! key). Qed.

Lemma reads_bind {A B} (c : M A) (k : A -> M B) :
  reads P c -> steady c -> (forall a, reads P (k a)) -> reads P (bind c k).
Proof.
  intros Hc Hsteady Hk w env Henv. unfold bind. rewrite (Hc w env Henv).
  specialize (Hsteady w). destruct (c w) as [[a | e | n] w1]; simpl in *; try done.
  apply Hk. intros key Hkey. rewrite Hsteady. by apply Henv.
Qed.

Lemma reads_try_except {A} (body : M A) (handles : exn -> bool) (handler : M A) :
  reads P body -> steady body -> reads P handler ->
  reads P (try_except body handles handler).
Proof.
  intros Hb Hsteady Hh w env Henv. unfold try_except. rewrite (Hb w env Henv).
  specialize (Hsteady w). destruct (body w) as [[a | e | n] w1]; simpl in *; try done.
  destruct (handles e); [| done].
  apply Hh. intros key Hkey. rewrite Hsteady. by apply Henv.
Qed.

Lemma reads_try_except_all {A} (body handler : M A) :
  reads P body -> steady body -> reads P handler ->
  reads P (try_except_all body handler).
Proof.
  intros Hb Hsteady Hh w env Henv. unfold try_except_all. rewrite (Hb w env Henv).
  specialize (Hsteady w). destruct (body w) as [[a | e | n] w1]; simpl in *; try done;
    apply Hh; intros key Hkey; rewrite Hsteady; by apply Henv.
Qed.

Lemma reads_prioritized_config (config : pyval) (path env_var_name : string)
    (convert_to : string -> outcome pyval) (required : bool) :
  P env_var_name ->
  reads P (prioritized_config config path env_var_name convert_to required).
Proof.
  intros Hname. unfold prioritized_config.
  apply reads_bind; [by apply reads_os_environ_get | done | intros [value |]].
  - apply reads_lift.
  - apply reads_try_except; [apply reads_getitem | apply steady_getitem |].
    destruct required; [| apply reads_ret].
    apply reads_bind; [apply reads_logger | apply steady_logger | intros _].
    apply reads_sys_exit.
Qed.

Lemma reads_Address_init (address_dict : pyval) (env_prefix : string) :
  P (env_prefix +:+ "_HOST") -> P (env_prefix +:+ "_PORT") ->
  reads P (Address___init__ address_dict env_prefix).
Proof.
  intros Hhost Hport. unfold Address___init__.
  apply reads_bind;
    [by apply reads_prioritized_config | apply steady_prioritized_config | intros host].
  apply reads_bind;
    [by apply reads_prioritized_config | apply steady_prioritized_config | intros port].
  apply reads_ret.
Qed.

Lemma reads_Video_init (video_dict : pyval) (env_prefix : string) :
  P (env_prefix +:+ "_ENABLE") -> P (env_prefix +:+ "_URI") ->
  reads P (Video___init__ video_dict env_prefix).
Proof.
  intros Henable Huri. unfold Video___init__.
  apply reads_bind;
    [by apply reads_prioritized_config | apply steady_prioritized_config | intros enable].
  apply reads_bind;
    [by apply reads_prioritized_config | apply steady_prioritized_config | intros uri].
  destruct (py_eq_str uri "screen"); [apply reads_ret |].
  apply reads_try_except_all.
  - unfold split, list_getitem. destruct uri as [| | | s |]; try done.
    apply reads_bind; [done | done | intros parts].
    destruct (parts !! 0%nat); [| done].
    apply reads_bind; [done | done | intros protocol].
    destruct (parts !! 1%nat); [| done].
    apply reads_bind; [done | done | intros location]. done.
  - unfold split, list_getitem. destruct uri as [| | | s |]; try done.
    intros w. unfold bind, ret. simpl.
    destruct (str_split ":" s !! 0%nat); [| done].
    by destruct (str_split ":" s !! 1%nat).
  - apply reads_bind; [apply reads_logger | apply steady_logger | intros _].
    apply reads_sys_exit.
Qed.
End Reads.

Lemma reads_Config_init `{Builtins} (config : pyval) :
  reads (fun k => k ∈ config_variables) (Config___init__ config).
Proof.
  assert (Hin : forall name, bool_decide (name ∈ config_variables) = true ->
                             name ∈ config_variables)
    by (intros name Hname; by apply bool_decide_eq_true in Hname).
  unfold Config___init__.
  apply reads_bind;
    [apply reads_prioritized_config; by apply Hin
    | apply steady_prioritized_config | intros lvl].
  apply reads_bind; [| | intros lvl'].
  { destruct (_ && _); [| done].
    apply reads_bind; [apply reads_logger | apply steady_logger | done]. }
  { destruct (_ && _); [| done].
    apply steady_bind; [apply steady_logger | done]. }
  apply reads_bind; [apply reads_getitem | apply steady_getitem | intros input_dict].
  apply reads_bind; [| apply steady_Input_init | intros input].
  { unfold Input___init__.
    apply reads_bind; [apply reads_getitem | apply steady_getitem | intros video_dict].
    apply reads_bind;
      [apply reads_Video_init; by apply Hin | apply steady_Video_init | intros video].
    apply reads_bind; [apply reads_getitem | apply steady_getitem | intros address_dict].
    apply reads_bind;
      [apply reads_Address_init; by apply Hin | apply steady_Address_init | done]. }
  apply reads_bind; [apply reads_getitem | apply steady_getitem | intros output_dict].
  apply reads_bind; [| apply steady_Output_init | intros output].
  { unfold Output___init__.
    apply reads_bind; [apply reads_getitem | apply steady_getitem | intros video_dict].
    apply reads_bind;
      [apply reads_Video_init; by apply Hin | apply steady_Video_init | intros video].
    apply reads_bind; [apply reads_getitem | apply steady_getitem | intros address_dict].
    apply reads_bind;
      [apply reads_Address_init; by apply Hin | apply steady_Address_init | done]. }
  apply reads_bind;
    [apply reads_prioritized_config; by apply Hin
    | apply steady_prioritized_config | done].
Qed.

(** X24. [Config.__init__] reads ten environment variables and no other:
    in two environments that agree on them, it ends the same way, with the
    same configuration when it returns one, and logs the same lines. *)
Theorem Config_reads_only_its_variables `{Builtins}
    (config : pyval) (w : world) (env : gmap string string) :
  (forall k, k ∈ config_variables -> env !! k = environ w !! k) ->
  Config___init__ config (set_environ env w)
  = (fst (Config___init__ config w), set_environ env (snd (Config___init__ config w))).
Proof. apply reads_Config_init. Qed.

Lemma Config_reads_only_its_variables_witness :
  let env : gmap string string := {[ "HOME" := "/root" ]} in
  let config := demo_document (VInt 2) in
  @Config___init__ ascii_builtins config (set_environ env fresh)
  = (fst (@Config___init__ ascii_builtins config fresh),
     set_environ env (snd (@Config___init__ ascii_builtins config fresh))).
Proof.
  intros env config.
  apply (@Config_reads_only_its_variables ascii_builtins config fresh env).
  intros k Hk. unfold config_variables in Hk.
  repeat (apply elem_of_cons in Hk as [-> | Hk]; [reflexivity |]).
  by apply elem_of_nil in Hk.
Defined.
